(** * vision-proxy: a shallow embedding of the request transformation pipeline

    The development follows the layout of the Python sources:
    - [py]            the fragment of Python the sources rely on (decoded JSON
                      values, dicts, exceptions, string helpers);
    - [ocr]           src/ocr.py: image extraction, the OCR client and the
                      OCR orchestrator;
    - [message_utils] src/message_utils.py: formatting and message rebuilding;
    - [proxy]         src/proxy.py: forwarder and transparent proxy;
    - [main]          src/main.py: URL parsing and routing.

    Strings are byte strings (UTF-8 encoded where the sources use non-ASCII
    literals).  [copy.deepcopy] is the identity on immutable values. *)

From stdpp Require Import base option list strings pretty gmap sorting.
From Stdlib Require Import Ascii.

Open Scope string_scope.
Open Scope list_scope.

(** ** The Python fragment *)
Module py.

(** A value obtained by decoding a JSON document ([Any] in the type hints).
    [JFloat m e] is the finite float [m * 2^e]; no function of the proxy
    computes with one.  A dict is the list of its items in insertion order,
    so equality of two dicts below also says that their keys come in the
    same order. *)
#[warnings="-register-all"]
Inductive json : Type :=
| JNull
| JBool (b : bool)
| JInt (n : Z)
| JFloat (m e : Z)
| JStr (s : string)
| JList (items : list json)
| JDict (fields : list (string * json)).

(** [dict[str, Any]] *)
Abbreviation pydict := (list (string * json)).

(** Exceptions that the modelled code raises or lets escape.  The string is
    what [str(e)] gives. *)
Inductive exn : Type :=
| AttributeError (msg : string)
| KeyError (key_repr : string)
| IndexError (msg : string)
| TypeError (msg : string)
| JSONDecodeError (msg : string)
| NetworkError (msg : string)
| OCRError (message : string) (image_index : Z)
| HTTPException (status_code : Z) (detail : string).

Definition exn_str (e : exn) : string :=
  match e with
  | AttributeError m | KeyError m | IndexError m | TypeError m
  | JSONDecodeError m | NetworkError m => m
  | OCRError m _ => m
  | HTTPException c d => pretty c +:+ ": " +:+ d
  end.

(** A computation that returns or raises. *)
Inductive result (A : Type) : Type :=
| Ok (a : A)
| Raise (e : exn).
Arguments Ok {A} a.
Arguments Raise {A} e.

#[export] Instance result_ret : MRet result := λ A a, Ok a.
#[export] Instance result_bind : MBind result := λ A B f m,
  match m with Ok a => f a | Raise e => Raise e end.

Definition is_ok {A} (r : result A) : bool :=
  match r with Ok _ => true | Raise _ => false end.

(** The line feed of ["\n"]. *)
Definition nl : string := String (Ascii.ascii_of_nat 10) "".

Definition type_name (v : json) : string :=
  match v with
  | JNull => "NoneType"
  | JBool _ => "bool"
  | JInt _ => "int"
  | JFloat _ _ => "float"
  | JStr _ => "str"
  | JList _ => "list"
  | JDict _ => "dict"
  end.

(** [d.get(key)]: [None] stands for Python's [None] of a missing key. *)
Fixpoint dict_get {V} (key : string) (d : list (string * V)) : option V :=
  match d with
  | [] => None
  | (k, v) :: rest => if String.eqb k key then Some v else dict_get key rest
  end.

(** [d.get(key, dflt)] *)
Definition dict_get_default (key : string) (dflt : json) (d : pydict) : json :=
  default dflt (dict_get key d).

(** [d[key] = v]: an existing key keeps its position, a new one goes last. *)
Fixpoint dict_set {V} (key : string) (v : V) (d : list (string * V))
  : list (string * V) :=
  match d with
  | [] => [(key, v)]
  | (k, w) :: rest =>
      if String.eqb k key then (k, v) :: rest else (k, w) :: dict_set key v rest
  end.

(** [x.get(key)] on an arbitrary value: only a dict has the method. *)
Definition attr_get (x : json) (key : string) : result (option json) :=
  match x with
  | JDict d => Ok (dict_get key d)
  | _ => Raise (AttributeError
                  ("'" +:+ type_name x +:+ "' object has no attribute 'get'"))
  end.

(** [v == "literal"] for the result [v] of a [.get]. *)
Definition eq_str (v : option json) (lit : string) : bool :=
  match v with
  | Some (JStr s) => String.eqb s lit
  | _ => false
  end.

(** [isinstance(item, dict)] *)
Definition is_dict (x : json) : bool :=
  match x with JDict _ => true | _ => false end.

(** [isinstance(x, list)] *)
Definition is_list (x : json) : bool :=
  match x with JList _ => true | _ => false end.

(** [x[key]] with a string key. *)
Definition getitem_key (x : json) (key : string) : result json :=
  match x with
  | JDict d =>
      match dict_get key d with
      | Some v => Ok v
      | None => Raise (KeyError ("'" +:+ key +:+ "'"))
      end
  | JList _ => Raise (TypeError "list indices must be integers or slices, not str")
  | JStr _ => Raise (TypeError "string indices must be integers, not 'str'")
  | _ => Raise (TypeError ("'" +:+ type_name x +:+ "' object is not subscriptable"))
  end.

(** [x[0]].  The keys of a decoded JSON object are strings, so [0] is never
    among them. *)
Definition getitem_0 (x : json) : result json :=
  match x with
  | JList (v :: _) => Ok v
  | JList [] => Raise (IndexError "list index out of range")
  | JStr (String c _) => Ok (JStr (String c ""))
  | JStr "" => Raise (IndexError "string index out of range")
  | JDict _ => Raise (KeyError "0")
  | _ => Raise (TypeError ("'" +:+ type_name x +:+ "' object is not subscriptable"))
  end.

(** [s.lower()]; the strings lowered are header names, which are ASCII. *)
Definition lower_ascii (c : Ascii.ascii) : Ascii.ascii :=
  let n := Ascii.nat_of_ascii c in
  if (65 <=? n)%nat && (n <=? 90)%nat then Ascii.ascii_of_nat (n + 32) else c.

Fixpoint lower (s : string) : string :=
  match s with
  | "" => ""
  | String c rest => String (lower_ascii c) (lower rest)
  end.

(** [s.startswith(p)] *)
Definition startswith (s p : string) : bool := String.prefix p s.

(** [s.endswith(p)] *)
Definition endswith (s p : string) : bool :=
  String.prefix (String.rev p) (String.rev s).

(** [s.rstrip("/")] *)
Fixpoint lstrip_slash (s : string) : string :=
  match s with
  | String "/"%char rest => lstrip_slash rest
  | _ => s
  end.

Definition rstrip_slash (s : string) : string :=
  String.rev (lstrip_slash (String.rev s)).

(** [if x:] *)
Definition truthy (x : json) : bool :=
  match x with
  | JNull => false
  | JBool b => b
  | JInt n => negb (n =? 0)%Z
  | JFloat m _ => negb (m =? 0)%Z
  | JStr s => negb (String.eqb s "")
  | JList [] => false
  | JList _ => true
  | JDict [] => false
  | JDict _ => true
  end.

(** [needle in s] *)
Fixpoint contains (s needle : string) : bool :=
  String.prefix needle s ||
  match s with
  | "" => false
  | String _ rest => contains rest needle
  end.

(** ["\n".join(lines)] *)
Fixpoint join_lines (lines : list string) : string :=
  match lines with
  | [] => ""
  | [l] => l
  | l :: rest => l +:+ nl +:+ join_lines rest
  end.

End py.
Export py.

(** ** src/config.py *)
Module config.

Record Config : Type := {
  OCR_ENDPOINT : string;
  OCR_API_KEY : string;
  OCR_MODEL_NAME : string;
  OCR_PARALLEL : bool;
  OCR_PROMPT : string;
  OCR_TIMEOUT : Z;
  UPSTREAM_TIMEOUT : Z;
  PROXY_HOST : string;
  PROXY_PORT : Z
}.

(** The values taken when no environment variable is set. *)
Definition defaults : Config := {|
  OCR_ENDPOINT := "http://localhost:8080/v1/chat/completions";
  OCR_API_KEY := "";
  OCR_MODEL_NAME := "gpt-4-vision";
  OCR_PARALLEL := true;
  OCR_PROMPT := "请详细描述这张图片的内容";
  OCR_TIMEOUT := 60;
  UPSTREAM_TIMEOUT := 300;
  PROXY_HOST := "0.0.0.0";
  PROXY_PORT := 8000
|}.

End config.

(** ** The HTTP client as the sources use it *)
Module httpx.

Inductive body : Type :=
| JsonBody (payload : json)      (* json=payload *)
| RawBody (content : string).    (* content=body *)

(** One outgoing call: the arguments handed to the client.  [params] is
    [None] when the call passes no [params=] argument and holds the query
    parameters handed over, url-encoded, when it passes one.  What the client
    makes of the URL and the parameters is not modelled. *)
Record request : Type := {
  method : string;
  url : string;
  params : option string;
  headers : list (string * string);
  content : body;
  timeout : Z
}.

(** A received response.  [resp_headers] is what [response.headers.items()]
    yields; [resp_json] is the outcome of [response.json()], [inl] holding
    the text of the decoding error. *)
Record response : Type := {
  status_code : Z;
  text : string;
  resp_headers : list (string * string);
  resp_json : string + json
}.

(** How one call ends: [TimeoutException] is tested before its base class
    [RequestError]. *)
Inductive exchange : Type :=
| Responded (r : response)
| TimeoutException (msg : string)
| RequestError (msg : string).

(** [headers.get(name)] and [headers.get(name, dflt)]: names compare
    without case. *)
Fixpoint headers_get (name : string) (hs : list (string * string)) : option string :=
  match hs with
  | [] => None
  | (k, v) :: rest =>
      if String.eqb (lower k) (lower name) then Some v else headers_get name rest
  end.

End httpx.

(** ** src/ocr.py *)
Module ocr.
Import config.

(** [isinstance(item, dict) and item.get("type") == "image_url"] *)
Definition is_image_item (item : json) : bool :=
  match item with
  | JDict d => eq_str (dict_get "type" d) "image_url"
  | _ => false
  end.

(** The inner loop [for content_idx, item in enumerate(content)]. *)
Fixpoint extract_content (msg_idx content_idx : nat) (content : list json)
  : list (nat * nat * json) :=
  match content with
  | [] => []
  | item :: rest =>
      if is_image_item item
      then (msg_idx, content_idx, item) :: extract_content msg_idx (S content_idx) rest
      else extract_content msg_idx (S content_idx) rest
  end.

(** The body of the outer loop for one message. *)
Definition extract_message (msg_idx : nat) (message : pydict)
  : list (nat * nat * json) :=
  match dict_get "content" message with
  | Some (JList content) => extract_content msg_idx 0 content
  | _ => []
  end.

(** The outer loop [for msg_idx, message in enumerate(messages)]. *)
Fixpoint extract_from (msg_idx : nat) (messages : list pydict)
  : list (nat * nat * json) :=
  match messages with
  | [] => []
  | message :: rest =>
      extract_message msg_idx message ++ extract_from (S msg_idx) rest
  end.

Definition extract_images (messages : list pydict) : list (nat * nat * json) :=
  extract_from 0 messages.

Section client.
Context (cfg : Config).

(** The request [call_ocr] posts. *)
Definition ocr_payload (image_content : json) : json :=
  JDict [("model", JStr (OCR_MODEL_NAME cfg));
         ("messages",
          JList [JDict [("role", JStr "user");
                        ("content",
                         JList [JDict [("type", JStr "text");
                                       ("text", JStr (OCR_PROMPT cfg))];
                                image_content])]]);
         ("max_tokens", JInt 4096)].

Definition ocr_headers : list (string * string) :=
  let headers := [("Content-Type", "application/json")] in
  if negb (String.eqb (OCR_API_KEY cfg) "")
  then dict_set "Authorization" ("Bearer " +:+ OCR_API_KEY cfg) headers
  else headers.

Definition ocr_request (image_content : json) : httpx.request := {|
  httpx.method := "POST";
  httpx.url := OCR_ENDPOINT cfg;
  httpx.params := None;
  httpx.headers := ocr_headers;
  httpx.content := httpx.JsonBody (ocr_payload image_content);
  httpx.timeout := OCR_TIMEOUT cfg
|}.

(** [result["choices"][0]["message"]["content"]] *)
Definition response_text (result : json) : py.result json :=
  choices ← getitem_key result "choices";
  first ← getitem_0 choices;
  message ← getitem_key first "message";
  getitem_key message "content".

(** [call_ocr]: [post] is the network, answering the one call made.  Only
    [KeyError] and [IndexError] are caught around the subscripts; a failure of
    [response.json()] and a [TypeError] of a subscript escape as they are. *)
Definition call_ocr (post : httpx.request → httpx.exchange)
    (image_content : json) (image_index : Z) : py.result json :=
  match post (ocr_request image_content) with
  | httpx.Responded response =>
      if negb (httpx.status_code response =? 200)%Z
      then Raise (OCRError
                    ("OCR API returned status " +:+ pretty (httpx.status_code response)
                     +:+ ": " +:+ httpx.text response)
                    image_index)
      else
        match httpx.resp_json response with
        | inl msg => Raise (JSONDecodeError msg)
        | inr result =>
            match response_text result with
            | Ok ocr_text => Ok ocr_text
            | Raise (KeyError e) | Raise (IndexError e) =>
                Raise (OCRError ("Invalid OCR response format: " +:+ e) image_index)
            | Raise e => Raise e
            end
        end
  | httpx.TimeoutException _ =>
      Raise (OCRError
               ("OCR request timed out after " +:+ pretty (OCR_TIMEOUT cfg) +:+ "s")
               image_index)
  | httpx.RequestError e =>
      Raise (OCRError ("OCR request failed: " +:+ e) image_index)
  end.

(** [asyncio.gather] with [return_exceptions=True]: every task has a slot
    at its own position; a task that completes puts its outcome there.
    [schedule] lists the tasks in the order in which they complete; tasks it
    does not name complete afterwards.  The call returns the slots once all
    are filled. *)
Definition settle (tasks : list (py.result json))
    (slots : list (option (py.result json))) (i : nat)
  : list (option (py.result json)) :=
  match tasks !! i with
  | Some outcome => <[i := Some outcome]> slots
  | None => slots
  end.

Definition gather (tasks : list (py.result json)) (schedule : list nat)
  : list (py.result json) :=
  omap id (foldl (settle tasks) (replicate (length tasks) None)
                 (schedule ++ seq 0 (length tasks))).

(** What the parallel branch raises for the exception [e] found at position
    [idx]: an [OCRError] as it is, anything else wrapped in one. *)
Definition surfaced (idx : nat) (e : exn) : exn :=
  match e with
  | OCRError message image_index => OCRError message image_index
  | _ => OCRError
           ("OCR failed for image " +:+ pretty (Z.of_nat idx + 1)%Z
            +:+ ": " +:+ exn_str e)
           (Z.of_nat idx + 1)
  end.

(** The loop [for idx, result in enumerate(results)] of the parallel branch. *)
Fixpoint collect (idx : nat) (results : list (py.result json))
  : py.result (list (Z * json)) :=
  match results with
  | [] => Ok []
  | Raise e :: _ => Raise (surfaced idx e)
  | Ok description :: rest =>
      ocr_results ← collect (S idx) rest;
      Ok ((Z.of_nat idx + 1, description)%Z :: ocr_results)
  end.

(** The loop of the serial branch: the first failure ends it. *)
Fixpoint serial (post : nat → httpx.request → httpx.exchange) (idx : nat)
    (images : list (nat * nat * json)) : py.result (list (Z * json)) :=
  match images with
  | [] => Ok []
  | (_, _, image_content) :: rest =>
      description ← call_ocr (post idx) image_content (Z.of_nat idx + 1);
      ocr_results ← serial post (S idx) rest;
      Ok ((Z.of_nat idx + 1, description)%Z :: ocr_results)
  end.

(** [process_images]: [post idx] is the network as the call for the image
    at position [idx] meets it. *)
Definition process_images (post : nat → httpx.request → httpx.exchange)
    (schedule : list nat) (images : list (nat * nat * json))
  : py.result (list (Z * json)) :=
  match images with
  | [] => Ok []
  | _ =>
      if OCR_PARALLEL cfg
      then
        let tasks := imap (λ idx img, call_ocr (post idx) img.2 (Z.of_nat idx + 1)) images in
        collect 0 (gather tasks schedule)
      else serial post 0 images
  end.

End client.
End ocr.

(** ** src/message_utils.py *)
Module message_utils.

(** One line of [format_ocr_results]: the f-string
    ["图片{image_num}内容：({ocr_text})"]. *)
Definition format_line (entry : Z * string) : string :=
  "图片" +:+ pretty entry.1 +:+ "内容：(" +:+ entry.2 +:+ ")".

Definition format_ocr_results (ocr_results : list (Z * string)) : string :=
  match ocr_results with
  | [] => ""
  | _ => join_lines (format_line <$> ocr_results)
  end.

(** [{(msg_idx, content_idx) for msg_idx, content_idx, _ in images}] *)
Definition images_to_remove (images : list (nat * nat * json)) : gset (nat * nat) :=
  list_to_set ((λ image, image.1) <$> images).

(** The filtering loop over [enumerate(content)]. *)
Fixpoint filter_content (remove : gset (nat * nat)) (msg_idx content_idx : nat)
    (content : list json) : list json :=
  match content with
  | [] => []
  | item :: rest =>
      if bool_decide ((msg_idx, content_idx) ∈ remove)
      then filter_content remove msg_idx (S content_idx) rest
      else item :: filter_content remove msg_idx (S content_idx) rest
  end.

(** The [if / elif / else] that chooses the new content.  The [elif] calls
    [.get] on the sole remaining item without an [isinstance] test. *)
Definition simplify_content (new_content : list json) : result json :=
  match new_content with
  | [] => Ok (JStr "")
  | [item] =>
      ty ← attr_get item "type";
      if eq_str ty "text"
      then text ← attr_get item "text"; Ok (default (JStr "") text)
      else Ok (JList new_content)
  | _ => Ok (JList new_content)
  end.

(** The body of the first loop for one message. *)
Definition strip_message (remove : gset (nat * nat)) (msg_idx : nat)
    (message : pydict) : result pydict :=
  match dict_get "content" message with
  | Some (JList content) =>
      new_content ← simplify_content (filter_content remove msg_idx 0 content);
      Ok (dict_set "content" new_content message)
  | _ => Ok message
  end.

(** The first loop, [for msg_idx, message in enumerate(new_messages)]. *)
Fixpoint strip_from (remove : gset (nat * nat)) (msg_idx : nat)
    (messages : list pydict) : result (list pydict) :=
  match messages with
  | [] => Ok []
  | message :: rest =>
      message' ← strip_message remove msg_idx message;
      rest' ← strip_from remove (S msg_idx) rest;
      Ok (message' :: rest')
  end.

(** [message.get("role") == "user"] *)
Definition is_user (message : pydict) : bool :=
  eq_str (dict_get "role" message) "user".

(** [for idx in range(n - 1, -1, -1)]: the first hit scanning downwards;
    [None] is the sentinel [-1]. *)
Fixpoint scan_back (messages : list pydict) (n : nat) : option nat :=
  match n with
  | 0 => None
  | S idx =>
      match messages !! idx with
      | Some message => if is_user message then Some idx else scan_back messages idx
      | None => scan_back messages idx
      end
  end.

Definition last_user_idx (messages : list pydict) : option nat :=
  scan_back messages (length messages).

(** [{"type": "text", "text": f"\n\n{ocr_text}"}] *)
Definition ocr_text_item (ocr_text : string) : json :=
  JDict [("type", JStr "text"); ("text", JStr (nl +:+ nl +:+ ocr_text))].

(** [{"role": "user", "content": ocr_text}] *)
Definition ocr_user_message (ocr_text : string) : pydict :=
  [("role", JStr "user"); ("content", JStr ocr_text)].

(** The new content of the last user message; [None] when the content is
    neither a string nor a list, in which case the code assigns nothing. *)
Definition appended_content (current_content : json) (ocr_text : string)
  : option json :=
  match current_content with
  | JStr "" => Some (JStr ocr_text)
  | JStr current => Some (JStr (current +:+ nl +:+ nl +:+ ocr_text))
  | JList current => Some (JList (current ++ [ocr_text_item ocr_text]))
  | _ => None
  end.

(** The block under [if ocr_text:]. *)
Definition append_ocr_text (new_messages : list pydict) (ocr_text : string)
  : list pydict :=
  match last_user_idx new_messages with
  | Some idx =>
      match new_messages !! idx with
      | Some message =>
          match appended_content
                  (dict_get_default "content" (JStr "") message) ocr_text with
          | Some content => <[idx := dict_set "content" content message]> new_messages
          | None => new_messages
          end
      | None => new_messages
      end
  | None => new_messages ++ [ocr_user_message ocr_text]
  end.

Definition rebuild_messages (messages : list pydict)
    (images : list (nat * nat * json)) (ocr_text : string)
  : result (list pydict) :=
  new_messages ← strip_from (images_to_remove images) 0 messages;
  Ok (if String.eqb ocr_text "" then new_messages
      else append_ocr_text new_messages ocr_text).

(** [has_images] *)
Definition has_images (messages : list pydict) : bool :=
  existsb (λ message,
    match dict_get "content" message with
    | Some (JList content) => existsb ocr.is_image_item content
    | _ => false
    end) messages.

End message_utils.

(** ** The inbound request as the framework presents it *)
Module starlette.

(** [headers] is what [request.headers.items()] yields, one pair per header
    line, so a name may occur more than once; [query_params] stands for
    [request.query_params], written as the url-encoded query string ([""]
    when the request has none); [json] is the outcome of
    [request.json()], [inl] holding the text of the decoding error. *)
Record Request : Type := {
  method : string;
  headers : list (string * string);
  query_params : string;
  body : string;
  json : string + py.json
}.

End starlette.

(** ** src/proxy.py *)
Module proxy.
Import config.

(** What a handler hands back.  The body of a [StreamingResponse] is the
    sequence of chunks that the streamed call [source] yields. *)
Inductive reply : Type :=
| Response (content : string) (status_code : Z)
    (headers : list (string * string)) (media_type : option string)
| StreamingResponse (source : httpx.request) (media_type : string)
    (headers : list (string * string)).

Section forwarder.
Context (cfg : Config) (send : httpx.request → httpx.exchange).

(** Awaiting a call of the client: a failure of the network is raised. *)
Definition perform (r : httpx.request) : result httpx.response :=
  match send r with
  | httpx.Responded response => Ok response
  | httpx.TimeoutException msg | httpx.RequestError msg => Raise (NetworkError msg)
  end.

Definition post_request (url : string) (payload : pydict)
    (headers : list (string * string)) : httpx.request := {|
  httpx.method := "POST";
  httpx.url := url;
  httpx.params := None;
  httpx.headers := headers;
  httpx.content := httpx.JsonBody (JDict payload);
  httpx.timeout := UPSTREAM_TIMEOUT cfg
|}.

Definition non_stream_response (url : string) (payload : pydict)
    (headers : list (string * string)) : result reply :=
  response ← perform (post_request url payload headers);
  Ok (Response (httpx.text response) (httpx.status_code response)
        (httpx.resp_headers response)
        (httpx.headers_get "content-type" (httpx.resp_headers response))).

Definition stream_response (url : string) (payload : pydict)
    (headers : list (string * string)) : result reply :=
  Ok (StreamingResponse (post_request url payload headers) "text/event-stream"
        [("Cache-Control", "no-cache"); ("Connection", "keep-alive");
         ("X-Accel-Buffering", "no")]).

Definition forward_chat_request (upstream_url : string) (payload : pydict)
    (authorization : option string) : result reply :=
  let headers := [("Content-Type", "application/json")] in
  let headers :=
    match authorization with
    | Some a => if negb (String.eqb a "") then dict_set "Authorization" a headers
                else headers
    | None => headers
    end in
  let is_streaming := truthy (dict_get_default "stream" (JBool false) payload) in
  if is_streaming then stream_response upstream_url payload headers
  else non_stream_response upstream_url payload headers.

(** The loop that builds the headers sent upstream. *)
Definition forwarded_headers (items : list (string * string))
  : list (string * string) :=
  foldl (λ headers item,
           if negb (bool_decide (lower item.1 ∈ ["host"; "content-length"]))
           then dict_set item.1 item.2 headers else headers)
        [] items.

Definition hop_by_hop : gset string :=
  {[ "connection"; "keep-alive"; "transfer-encoding"; "te"; "trailers"; "upgrade" ]}.

(** The loop that builds the headers relayed to the caller. *)
Definition relayed_headers (items : list (string * string))
  : list (string * string) :=
  foldl (λ response_headers item,
           if negb (bool_decide (lower item.1 ∈ hop_by_hop))
           then dict_set item.1 item.2 response_headers else response_headers)
        [] items.

Definition passthrough_request (upstream_url : string)
    (request : starlette.Request) : httpx.request := {|
  httpx.method := starlette.method request;
  httpx.url := upstream_url;
  httpx.params := Some (starlette.query_params request);
  httpx.headers := forwarded_headers (starlette.headers request);
  httpx.content := httpx.RawBody (starlette.body request);
  httpx.timeout := UPSTREAM_TIMEOUT cfg
|}.

Definition passthrough (upstream_url : string) (request : starlette.Request)
  : result reply :=
  let outgoing := passthrough_request upstream_url request in
  response ← perform outgoing;
  let content_type :=
    default "" (httpx.headers_get "content-type" (httpx.resp_headers response)) in
  if contains content_type "text/event-stream"
  then Ok (StreamingResponse outgoing "text/event-stream"
             [("Cache-Control", "no-cache"); ("Connection", "keep-alive")])
  else Ok (Response (httpx.text response) (httpx.status_code response)
             (relayed_headers (httpx.resp_headers response))
             (httpx.headers_get "content-type" (httpx.resp_headers response))).

End forwarder.
End proxy.

(** ** src/main.py *)
Module main.
Import config.

Definition parse_upstream_url (path : string) : option string :=
  let path :=
    match path with
    | String "/"%char rest => rest
    | _ => path
    end in
  if startswith path "http://" || startswith path "https://"
  then Some path else None.

Definition is_chat_completions_path (url : string) : bool :=
  endswith (rstrip_slash url) "v1/chat/completions".

(** Iterating [messages] and calling [.get] on each element, as [has_images]
    and [extract_images] do: the elements as dicts, or the exception raised
    on the way. *)
Fixpoint as_dicts (l : list json) : result (list pydict) :=
  match l with
  | [] => Ok []
  | JDict d :: rest => ds ← as_dicts rest; Ok (d :: ds)
  | x :: _ => Raise (AttributeError
                       ("'" +:+ type_name x +:+ "' object has no attribute 'get'"))
  end.

Definition iter_messages (messages : json) : result (list pydict) :=
  match messages with
  | JList l => as_dicts l
  | JStr "" | JDict [] => Ok []
  | JStr _ | JDict _ => Raise (AttributeError "'str' object has no attribute 'get'")
  | _ => Raise (TypeError ("'" +:+ type_name messages +:+ "' object is not iterable"))
  end.

Section handler.
Context (cfg : Config).
(** [str()] as the f-string of [format_ocr_results] applies it to a
    description; the identity on a [str]. *)
Context (py_str : json → string).
(** The OCR endpoint as the call for each image meets it, the order in which
    concurrent OCR calls complete, and the upstream. *)
Context (ocr_post : nat → httpx.request → httpx.exchange).
Context (schedule : list nat).
Context (send : httpx.request → httpx.exchange).

(** [try: ... except Exception as e: raise HTTPException(502, ...)] *)
Definition or_502 (r : result proxy.reply) : result proxy.reply :=
  match r with
  | Ok reply => Ok reply
  | Raise e => Raise (HTTPException 502 ("Upstream error: " +:+ exn_str e))
  end.

Definition handle_chat_completions (request : starlette.Request)
    (upstream_url : string) (authorization : option string)
  : result proxy.reply :=
  match starlette.json request with
  | inl e => Raise (HTTPException 400 ("Invalid JSON body: " +:+ e))
  | inr (JDict payload) =>
      messages ← iter_messages (dict_get_default "messages" (JList []) payload);
      if negb (message_utils.has_images messages)
      then or_502 (proxy.forward_chat_request cfg send upstream_url payload
                     authorization)
      else
        let images := ocr.extract_images messages in
        match ocr.process_images cfg ocr_post schedule images with
        | Raise (OCRError message image_index) =>
            Raise (HTTPException 500
                     ("OCR processing failed for image " +:+ pretty image_index
                      +:+ ": " +:+ message))
        | Raise e => Raise e
        | Ok ocr_results =>
            let ocr_text :=
              message_utils.format_ocr_results
                ((λ r, (r.1, py_str r.2)) <$> ocr_results) in
            new_messages ← message_utils.rebuild_messages messages images ocr_text;
            let new_payload :=
              dict_set "messages" (JList (JDict <$> new_messages)) payload in
            or_502 (proxy.forward_chat_request cfg send upstream_url new_payload
                      authorization)
        end
  | inr body =>
      Raise (AttributeError
               ("'" +:+ type_name body +:+ "' object has no attribute 'get'"))
  end.

Definition proxy_handler (request : starlette.Request) (path : string)
  : result proxy.reply :=
  (* [full_path] is computed and never read *)
  let full_path :=
    if negb (String.eqb (starlette.query_params request) "")
    then "/" +:+ path +:+ "?" +:+ starlette.query_params request
    else "/" +:+ path in
  match parse_upstream_url path with
  | None =>
      Raise (HTTPException 400
               "Invalid upstream URL in path. Expected format: /http://host/path or /https://host/path")
  | Some upstream_url =>
      let authorization :=
        httpx.headers_get "Authorization" (starlette.headers request) in
      if is_chat_completions_path upstream_url
         && String.eqb (starlette.method request) "POST"
      then handle_chat_completions request upstream_url authorization
      else or_502 (proxy.passthrough cfg send upstream_url request)
  end.

End handler.
End main.

(** ** Vocabulary of the specification

    The definitions below say in the words of the specification what the
    theorems compare the code with. *)
Module spec.
Import ocr message_utils.

(** The order of coordinates: message index first, then content index. *)
Definition coord_lt (a b : nat * nat) : Prop :=
  a.1 < b.1 ∨ (a.1 = b.1 ∧ a.2 < b.2).

(** The items of a message's list-typed content; none for other content. *)
Definition content_items (message : pydict) : list json :=
  match dict_get "content" message with
  | Some (JList content) => content
  | _ => []
  end.

(** Content-shape normalisation of the items that remain. *)
Definition normalised (items : list json) : json :=
  match items with
  | [] => JStr ""
  | [JDict d] =>
      if eq_str (dict_get "type" d) "text"
      then dict_get_default "text" (JStr "") d
      else JList items
  | _ => JList items
  end.

(** The items of a list-typed content that are not image items. *)
Definition remaining (message : pydict) : list json :=
  filter (λ item, is_image_item item = false) (content_items message).

(** A message with its image items removed and its content normalised. *)
Definition without_images (message : pydict) : pydict :=
  match dict_get "content" message with
  | Some (JList _) => dict_set "content" (normalised (remaining message)) message
  | _ => message
  end.

(** No list-typed content is left, once its image items are taken out,
    with a single item that is not an object. *)
Definition sole_item_is_object (items : list json) : bool :=
  match items with
  | [item] => is_dict item
  | _ => true
  end.

Definition sole_items_are_objects (messages : list pydict) : bool :=
  forallb (λ message, sole_item_is_object (remaining message)) messages.

(** No list-typed content is left, once its image items are taken out,
    with a single text item that carries a list as its text. *)
Definition sole_text_is_plain (items : list json) : bool :=
  match items with
  | [JDict d] =>
      negb (eq_str (dict_get "type" d) "text"
            && is_list (dict_get_default "text" (JStr "") d))
  | _ => true
  end.

Definition sole_texts_are_plain (messages : list pydict) : bool :=
  forallb (λ message, sole_text_is_plain (remaining message)) messages.

(** A list-typed content that normalisation leaves as it is: two items or
    more, or a single object that is not a text item. *)
Definition keeps_shape (content : list json) : bool :=
  match content with
  | [] => false
  | [JDict d] => negb (eq_str (dict_get "type" d) "text")
  | [_] => false
  | _ => true
  end.

Definition shape_stable (messages : list pydict) : bool :=
  forallb (λ message,
    match dict_get "content" message with
    | Some (JList content) => keeps_shape content
    | _ => true
    end) messages.

(** [message], at position [idx], is the last message whose role is "user". *)
Definition last_user_at (messages : list pydict) (idx : nat) (message : pydict)
  : Prop :=
  messages !! idx = Some message ∧ is_user message = true ∧
  ∀ j later, idx < j → messages !! j = Some later → is_user later = false.

(** The response body has the text field [choices[0].message.content]. *)
Definition has_description (body : json) (description : json) : Prop :=
  ∃ fields rest choice message,
    body = JDict fields ∧
    dict_get "choices" fields = Some (JList (JDict choice :: rest)) ∧
    dict_get "message" choice = Some (JDict message) ∧
    dict_get "content" message = Some description.

(** The response body is an object in which the path [choices], first
    element, [message], [content] ends at an absent key or at an empty
    sequence. *)
Definition lacks_description (body : json) : bool :=
  match body with
  | JDict fields =>
      match dict_get "choices" fields with
      | None | Some (JList []) | Some (JStr "") | Some (JDict _) => true
      | Some (JList (JDict choice :: _)) =>
          match dict_get "message" choice with
          | None => true
          | Some (JDict message) =>
              match dict_get "content" message with
              | None => true
              | Some _ => false
              end
          | Some _ => false
          end
      | Some _ => false
      end
  | _ => false
  end.

(** The two header names that are not forwarded, and the hop-by-hop names
    that are not relayed, in lower case. *)
Definition transport_names : list string := ["host"; "content-length"].

Definition hop_by_hop_names : list string :=
  ["connection"; "keep-alive"; "transfer-encoding"; "te"; "trailers"; "upgrade"].

(** The last value that the header lines give to [name]. *)
Definition last_value (name : string) (items : list (string * string))
  : option string :=
  dict_get name (reverse items).

End spec.

(** ** Sample inputs *)
Module samples.

Definition image : json :=
  JDict [("type", JStr "image_url");
         ("image_url", JDict [("url", JStr "data:image/png;base64,AAAA")])].

Definition text_item (s : string) : json :=
  JDict [("type", JStr "text"); ("text", JStr s)].

Definition message (role : string) (content : json) : pydict :=
  [("role", JStr role); ("content", content)].

(** A conversation with images in two user turns. *)
Definition conversation : list pydict :=
  [message "system" (JStr "sys");
   message "user" (JList [text_item "look"; image; text_item "here"]);
   message "assistant" (JStr "ok");
   message "user" (JList [image])].

(** A content list holding an image and a bare string. *)
Definition bare_string_item : list pydict :=
  [message "user" (JList [image; JStr "abc"])].

(** A text item whose text is itself a list holding an image item. *)
Definition nested_text : list pydict :=
  [message "user" (JList [JDict [("type", JStr "text"); ("text", JList [image])]])].

(** A content list of a single text item. *)
Definition single_text : list pydict :=
  [message "user" (JList [text_item "hi"])].

(** Content lists that normalisation leaves alone. *)
Definition two_texts : list pydict :=
  [message "user" (JList [text_item "a"; text_item "b"]);
   message "assistant" (JStr "ok")].

(** An OCR endpoint that answers the calls for the first and the third
    image with status 500 and describes the second. *)
Definition description_body (description : string) : json :=
  JDict [("choices",
          JList [JDict [("message",
                         JDict [("role", JStr "assistant");
                                ("content", JStr description)])]])].

Definition answer (status : Z) (text : string) (body : string + json)
  : httpx.exchange :=
  httpx.Responded {| httpx.status_code := status; httpx.text := text;
                     httpx.resp_headers := [("content-type", "application/json")];
                     httpx.resp_json := body |}.

Definition first_and_third_fail (idx : nat) (_ : httpx.request) : httpx.exchange :=
  match idx with
  | 1 => answer 200 "" (inr (description_body "a red ball"))
  | _ => answer 500 "overloaded" (inl "Expecting value: line 1 column 1 (char 0)")
  end.

Definition three_images : list (nat * nat * json) :=
  [(0, 0, image); (0, 1, image); (2, 0, image)].

(** An upstream that answers every call with the arguments of the call as
    the body: the URL, followed by a question mark and the parameters when
    the call passes parameters. *)
Definition echo_upstream (r : httpx.request) : httpx.exchange :=
  httpx.Responded {| httpx.status_code := 200;
                     httpx.text :=
                       httpx.url r +:+
                       match httpx.params r with
                       | Some query => "?" +:+ query
                       | None => ""
                       end;
                     httpx.resp_headers := []; httpx.resp_json := inl "" |}.

(** An upstream that answers with a JSON document and a mix of headers. *)
Definition json_upstream (_ : httpx.request) : httpx.exchange :=
  httpx.Responded {| httpx.status_code := 200; httpx.text := "{}";
                     httpx.resp_headers :=
                       [("content-type", "application/json");
                        ("connection", "close");
                        ("x-request-id", "42");
                        ("transfer-encoding", "chunked")];
                     httpx.resp_json := inr (JDict []) |}.

(** A chat request without images that carries a query string. *)
Definition chat_with_query : starlette.Request := {|
  starlette.method := "POST";
  starlette.headers := [("host", "proxy"); ("authorization", "Bearer t")];
  starlette.query_params := "api-version=1";
  starlette.body := "";
  starlette.json := inr (JDict [("messages", JList [JDict (message "user" (JStr "hi"))])])
|}.

(** A request for another path with the same query string. *)
Definition models_with_query : starlette.Request := {|
  starlette.method := "GET";
  starlette.headers := [("host", "proxy"); ("authorization", "Bearer t")];
  starlette.query_params := "api-version=1";
  starlette.body := "";
  starlette.json := inl "Expecting value: line 1 column 1 (char 0)"
|}.

(** A request that repeats a header name. *)
Definition repeated_header : starlette.Request := {|
  starlette.method := "GET";
  starlette.headers :=
    [("host", "proxy"); ("accept", "text/html"); ("accept", "application/json");
     ("content-length", "0")];
  starlette.query_params := "";
  starlette.body := "";
  starlette.json := inl "Expecting value: line 1 column 1 (char 0)"
|}.

(** The default configuration with the OCR calls made one after another. *)
Definition serial_config : config.Config := {|
  config.OCR_ENDPOINT := config.OCR_ENDPOINT config.defaults;
  config.OCR_API_KEY := config.OCR_API_KEY config.defaults;
  config.OCR_MODEL_NAME := config.OCR_MODEL_NAME config.defaults;
  config.OCR_PARALLEL := false;
  config.OCR_PROMPT := config.OCR_PROMPT config.defaults;
  config.OCR_TIMEOUT := config.OCR_TIMEOUT config.defaults;
  config.UPSTREAM_TIMEOUT := config.UPSTREAM_TIMEOUT config.defaults;
  config.PROXY_HOST := config.PROXY_HOST config.defaults;
  config.PROXY_PORT := config.PROXY_PORT config.defaults
|}.

(** An OCR endpoint that describes every image by the position of its call. *)
Definition describes_all (idx : nat) (_ : httpx.request) : httpx.exchange :=
  answer 200 "" (inr (description_body ("image " +:+ pretty idx))).

(** An OCR endpoint that describes the first image and answers the call for
    every other one with status 200 and a JSON list as the body. *)
Definition second_answers_list (idx : nat) (_ : httpx.request) : httpx.exchange :=
  match idx with
  | 0 => answer 200 "" (inr (description_body "a red ball"))
  | _ => answer 200 "[]" (inr (JList []))
  end.

(** An upstream that cannot be reached. *)
Definition unreachable_upstream (_ : httpx.request) : httpx.exchange :=
  httpx.RequestError "All connection attempts failed".

(** A chat request whose only user turn holds a text and an image. *)
Definition chat_with_image : starlette.Request := {|
  starlette.method := "POST";
  starlette.headers := [("host", "proxy"); ("authorization", "Bearer t")];
  starlette.query_params := "";
  starlette.body := "";
  starlette.json :=
    inr (JDict [("model", JStr "m");
                ("messages",
                 JList [JDict (message "user" (JList [text_item "what is this?"; image]))]);
                ("temperature", JInt 0)])
|}.

(** An upstream that answers with an event stream. *)
Definition streaming_upstream (_ : httpx.request) : httpx.exchange :=
  httpx.Responded {| httpx.status_code := 200; httpx.text := "data: {}";
                     httpx.resp_headers :=
                       [("content-type", "text/event-stream; charset=utf-8");
                        ("x-request-id", "42")];
                     httpx.resp_json := inl "Expecting value" |}.

(** [str()] on the descriptions of the samples, which are strings. *)
Definition description_text (description : json) : string :=
  match description with
  | JStr s => s
  | _ => ""
  end.

(** A last user turn whose content is null, after a turn with an image. *)
Definition null_content_last : list pydict :=
  [message "user" (JList [image]); message "user" JNull].

(** A last user turn that has no content at all. *)
Definition missing_content_last : list pydict :=
  [message "user" (JList [image]); [("role", JStr "user")]].

End samples.

(** * Properties *)

Import ocr message_utils spec.

(** Runs the binds of a [result] computation whose head is known. *)
Ltac run_result := unfold mbind, result_bind; simpl.

(** ** Dicts *)
Section dict_facts.
Context {V : Type}.
Implicit Types (d : list (string * V)) (k : string) (v : V).

Lemma dict_get_set_eq k v d : dict_get k (dict_set k v d) = Some v.
Proof.
  induction d as [|[k' w] d IH]; simpl.
  - by rewrite String.eqb_refl.
  - destruct (String.eqb k' k) eqn:E; simpl; by rewrite E.
Qed.

Lemma dict_get_set_ne k k' v d :
  k ≠ k' → dict_get k' (dict_set k v d) = dict_get k' d.
Proof.
  intros Hne. induction d as [|[k0 w] d IH]; simpl.
  - destruct (String.eqb k k') eqn:E; [|done].
    apply String.eqb_eq in E. done.
  - destruct (String.eqb k0 k) eqn:E; simpl.
    + apply String.eqb_eq in E as ->.
      destruct (String.eqb k k') eqn:E'; [|done].
      apply String.eqb_eq in E'. done.
    + by rewrite IH.
Qed.

Lemma dict_set_same k v d : dict_get k d = Some v → dict_set k v d = d.
Proof.
  induction d as [|[k' w] d IH]; simpl; [done|].
  destruct (String.eqb k' k) eqn:E.
  - by intros [= ->].
  - intros H. by rewrite IH.
Qed.

End dict_facts.

(** ** The image extractor *)
Section extract_facts.

Lemma elem_of_extract_content msg_idx k content i j item :
  (i, j, item) ∈ extract_content msg_idx k content ↔
  i = msg_idx ∧ ∃ n, j = k + n ∧ content !! n = Some item ∧
                     is_image_item item = true.
Proof.
  revert k. induction content as [|x rest IH]; intros k; simpl.
  - rewrite elem_of_nil. split; [done|]. intros (_ & n & _ & H & _). done.
  - assert (Hrest :
        (i = msg_idx ∧ ∃ n, j = S k + n ∧ rest !! n = Some item ∧
                            is_image_item item = true) →
        i = msg_idx ∧ ∃ n, j = k + n ∧ (x :: rest) !! n = Some item ∧
                           is_image_item item = true).
    { intros (-> & n & -> & Hn & Him). split; [done|].
      exists (S n). split; [lia|done]. }
    destruct (is_image_item x) eqn:Hx.
    + rewrite elem_of_cons, IH. split.
      * intros [[= -> -> ->]|H]; [|by apply Hrest].
        split; [done|]. exists 0. rewrite Nat.add_0_r. done.
      * intros (-> & [|n] & -> & Hn & Him).
        -- left. simpl in Hn. injection Hn as ->. by rewrite Nat.add_0_r.
        -- right. split; [done|]. exists n. split; [lia|done].
    + rewrite IH. split; [by apply Hrest|].
      intros (-> & [|n] & -> & Hn & Him).
      * simpl in Hn. injection Hn as ->. congruence.
      * split; [done|]. exists n. split; [lia|done].
Qed.

Lemma elem_of_extract_message msg_idx message i j item :
  (i, j, item) ∈ extract_message msg_idx message ↔
  i = msg_idx ∧ ∃ content, dict_get "content" message = Some (JList content) ∧
                           content !! j = Some item ∧ is_image_item item = true.
Proof.
  unfold extract_message.
  destruct (dict_get "content" message) as [[]|] eqn:Hc;
    try (rewrite elem_of_nil; split; [done|]; by intros (_ & ? & [=] & _)).
  rewrite elem_of_extract_content. split.
  - intros (-> & n & -> & Hn & Him). split; [done|]. eauto.
  - intros (-> & content & [= <-] & Hn & Him). split; [done|]. eauto.
Qed.

Lemma elem_of_extract_from k messages i j item :
  (i, j, item) ∈ extract_from k messages ↔
  ∃ n message content,
    i = k + n ∧ messages !! n = Some message ∧
    dict_get "content" message = Some (JList content) ∧
    content !! j = Some item ∧ is_image_item item = true.
Proof.
  revert k. induction messages as [|m rest IH]; intros k; simpl.
  - rewrite elem_of_nil. split; [done|]. by intros (n & ? & ? & _ & ? & _).
  - rewrite elem_of_app, elem_of_extract_message, IH. split.
    + intros [(-> & content & Hc & Hj & Him)|(n & m' & content & -> & Hn & H)].
      * exists 0, m, content. rewrite Nat.add_0_r. done.
      * exists (S n), m', content. split; [lia|done].
    + intros ([|n] & m' & content & -> & Hn & Hc & H).
      * left. simpl in Hn. injection Hn as <-. rewrite Nat.add_0_r. eauto.
      * right. exists n, m', content. split; [lia|done].
Qed.

Lemma extract_content_sorted msg_idx k content :
  StronglySorted coord_lt ((λ image, image.1) <$> extract_content msg_idx k content).
Proof.
  revert k. induction content as [|x rest IH]; intros k; simpl; [constructor|].
  destruct (is_image_item x); [|apply IH].
  rewrite fmap_cons. constructor; [apply IH|].
  apply Forall_forall. intros [i j] Hin.
  apply list_elem_of_fmap in Hin as ([[i' j'] item] & [= -> ->] & Hin).
  apply elem_of_extract_content in Hin as (-> & n & -> & _).
  right. simpl. lia.
Qed.

Lemma extract_from_sorted k messages :
  StronglySorted coord_lt ((λ image, image.1) <$> extract_from k messages).
Proof.
  revert k. induction messages as [|m rest IH]; intros k; simpl; [constructor|].
  rewrite fmap_app. apply StronglySorted_app_2; [| |apply IH].
  - intros [i1 j1] [i2 j2] H1 H2.
    apply list_elem_of_fmap in H1 as ([[? ?] it1] & [= -> ->] & H1).
    apply list_elem_of_fmap in H2 as ([[? ?] it2] & [= -> ->] & H2).
    apply elem_of_extract_message in H1 as (-> & _).
    apply elem_of_extract_from in H2 as (n & ? & ? & -> & _).
    left. simpl. lia.
  - unfold extract_message. destruct (dict_get "content" m) as [[]|];
      try constructor. apply extract_content_sorted.
Qed.

(** [has_images] answers whether [extract_images] finds anything. *)
Lemma has_images_extract messages :
  has_images messages = true ↔
  ∃ i j item, (i, j, item) ∈ extract_images messages.
Proof.
  unfold has_images, extract_images. rewrite existsb_exists. split.
  - intros (message & Hin & Hfound).
    apply list_elem_of_In, list_elem_of_lookup in Hin as [i Hi].
    destruct (dict_get "content" message) as [[]|] eqn:Hc; try done.
    apply existsb_exists in Hfound as (item & Hitem & Himage).
    apply list_elem_of_In, list_elem_of_lookup in Hitem as [j Hj].
    exists i, j, item. apply elem_of_extract_from.
    exists i, message, items. done.
  - intros (i & j & item & Hin).
    apply elem_of_extract_from in Hin
      as (n & message & content & _ & Hn & Hc & Hj & Himage).
    exists message. split.
    + apply list_elem_of_In, list_elem_of_lookup. eauto.
    + rewrite Hc. apply existsb_exists. exists item. split; [|done].
      apply list_elem_of_In, list_elem_of_lookup. eauto.
Qed.

End extract_facts.

(** C7.  [extract_images] returns exactly the image items found in
    list-typed content, each with its (message index, content index)
    coordinates, in strictly ascending order of message index and then of
    content index; a message with string content contributes no image.  The
    function is pure: its result depends on [messages] alone and [messages]
    is left as it is. *)
Theorem extract_images_exact_and_ordered (messages : list pydict) :
  (∀ i j item,
     (i, j, item) ∈ extract_images messages ↔
     ∃ message content,
       messages !! i = Some message ∧
       dict_get "content" message = Some (JList content) ∧
       content !! j = Some item ∧ is_image_item item = true) ∧
  StronglySorted coord_lt ((λ image, image.1) <$> extract_images messages) ∧
  (∀ i message s j item,
     messages !! i = Some message →
     dict_get "content" message = Some (JStr s) →
     (i, j, item) ∉ extract_images messages).
Proof.
  assert (Hmem : ∀ i j item,
     (i, j, item) ∈ extract_images messages ↔
     ∃ message content,
       messages !! i = Some message ∧
       dict_get "content" message = Some (JList content) ∧
       content !! j = Some item ∧ is_image_item item = true).
  { intros i j item. unfold extract_images. rewrite elem_of_extract_from. split.
    - intros (n & m & content & -> & H). eauto.
    - intros (m & content & H). exists i, m, content. done. }
  split; [exact Hmem|]. split; [apply extract_from_sorted|].
  intros i message s j item Hi Hs Hin.
  apply Hmem in Hin as (m & content & Hi' & Hc & _). congruence.
Qed.

(** ** The message rebuilder: stripping *)
Section strip_facts.
Implicit Types (remove : gset (nat * nat)) (messages : list pydict).

Lemma elem_of_images_to_remove images i j :
  (i, j) ∈ images_to_remove images ↔ ∃ item, (i, j, item) ∈ images.
Proof.
  unfold images_to_remove. rewrite elem_of_list_to_set, list_elem_of_fmap. split.
  - intros ([[i' j'] item] & [= -> ->] & Hin). eauto.
  - intros (item & Hin). by exists (i, j, item).
Qed.

Lemma filter_content_by_predicate remove msg_idx k content :
  (∀ n item, content !! n = Some item →
             (msg_idx, k + n) ∈ remove ↔ is_image_item item = true) →
  filter_content remove msg_idx k content
  = filter (λ item, is_image_item item = false) content.
Proof.
  revert k. induction content as [|x rest IH]; intros k Hspec; simpl; [done|].
  assert (Hx : (msg_idx, k) ∈ remove ↔ is_image_item x = true).
  { rewrite <- (Hspec 0 x); [by rewrite Nat.add_0_r|done]. }
  assert (Hrest : filter_content remove msg_idx (S k) rest
                  = filter (λ item, is_image_item item = false) rest).
  { apply IH. intros n item Hn. rewrite <- (Hspec (S n) item Hn).
    by replace (k + S n) with (S k + n) by lia. }
  rewrite filter_cons, Hrest.
  destruct (is_image_item x) eqn:E.
  - rewrite bool_decide_eq_true_2 by (by apply Hx).
    by rewrite decide_False.
  - rewrite bool_decide_eq_false_2 by (rewrite Hx; congruence).
    by rewrite decide_True.
Qed.

Lemma filter_content_nothing msg_idx k content :
  filter_content ∅ msg_idx k content = content.
Proof.
  revert k. induction content as [|x rest IH]; intros k; simpl; [done|].
  rewrite bool_decide_eq_false_2 by set_solver. by rewrite IH.
Qed.

Lemma filter_content_sublist remove msg_idx k content item :
  item ∈ filter_content remove msg_idx k content → item ∈ content.
Proof.
  revert k. induction content as [|x rest IH]; intros k; simpl; [done|].
  rewrite elem_of_cons. destruct (bool_decide _).
  - intros H. right. by eapply IH.
  - rewrite elem_of_cons. intros [->|H]; [by left|]. right. by eapply IH.
Qed.

Lemma simplify_content_normalised items :
  sole_item_is_object items = true → simplify_content items = Ok (normalised items).
Proof.
  destruct items as [|x [|y rest]]; simpl; [done| |by destruct x].
  destruct x; try done. intros _.
  run_result.
  by destruct (eq_str (dict_get "type" fields) "text").
Qed.

Lemma simplify_content_not_object item :
  is_dict item = false →
  simplify_content [item]
  = Raise (AttributeError ("'" +:+ type_name item +:+ "' object has no attribute 'get'")).
Proof. by destruct item. Qed.

Lemma simplify_content_raises items e :
  simplify_content items = Raise e → ∃ msg, e = AttributeError msg.
Proof.
  destruct items as [|x [|y rest]]; simpl; try done.
  destruct x; simpl; try (intros [= <-]; eauto).
  run_result.
  by destruct (eq_str (dict_get "type" fields) "text").
Qed.

Lemma strip_message_raises remove msg_idx message e :
  strip_message remove msg_idx message = Raise e → ∃ msg, e = AttributeError msg.
Proof.
  unfold strip_message.
  destruct (dict_get "content" message) as [[]|]; try done.
  destruct (simplify_content _) eqn:E; simpl; [done|].
  intros [= <-]. by apply simplify_content_raises in E.
Qed.

Lemma strip_from_all_ok remove (f : pydict → pydict) k messages :
  (∀ n message, messages !! n = Some message →
                strip_message remove (k + n) message = Ok (f message)) →
  strip_from remove k messages = Ok (f <$> messages).
Proof.
  revert k. induction messages as [|m rest IH]; intros k Hall; simpl; [done|].
  rewrite <- (Nat.add_0_r k) at 1. rewrite (Hall 0 m) by done. simpl.
  rewrite (IH (S k)); [done|].
  intros n message Hn. replace (S k + n) with (k + S n) by lia. by apply Hall.
Qed.

Lemma strip_from_raises remove k messages e :
  strip_from remove k messages = Raise e → ∃ msg, e = AttributeError msg.
Proof.
  revert k. induction messages as [|m rest IH]; intros k; simpl; [done|].
  destruct (strip_message remove k m) eqn:E; simpl.
  - destruct (strip_from remove (S k) rest) eqn:E'; simpl; [done|].
    intros [= <-]. by eapply IH.
  - intros [= <-]. by eapply strip_message_raises.
Qed.

Lemma strip_from_one_raises remove k messages n message e :
  messages !! n = Some message →
  strip_message remove (k + n) message = Raise e →
  ∃ e', strip_from remove k messages = Raise e'.
Proof.
  revert k n. induction messages as [|m rest IH]; intros k n Hn Hraise; [done|].
  simpl. destruct n as [|n]; simpl in Hn.
  - injection Hn as ->. rewrite Nat.add_0_r in Hraise. rewrite Hraise. eauto.
  - destruct (strip_message remove k m); simpl; [|eauto].
    replace (k + S n) with (S k + n) in Hraise by lia.
    destruct (IH (S k) n Hn Hraise) as [e' ->]. simpl. eauto.
Qed.

Lemma rebuild_without_text messages images :
  rebuild_messages messages images ""
  = strip_from (images_to_remove images) 0 messages.
Proof.
  unfold rebuild_messages. by destruct (strip_from _ _ _).
Qed.

Lemma rebuild_with_text messages images ocr_text stripped :
  ocr_text ≠ "" →
  strip_from (images_to_remove images) 0 messages = Ok stripped →
  rebuild_messages messages images ocr_text
  = Ok (append_ocr_text stripped ocr_text).
Proof.
  intros Hne Hstrip. unfold rebuild_messages. rewrite Hstrip. simpl.
  destruct (String.eqb ocr_text "") eqn:E; [|done].
  by apply String.eqb_eq in E.
Qed.

Lemma forallb_lookup (p : pydict → bool) messages n message :
  forallb p messages = true → messages !! n = Some message → p message = true.
Proof.
  rewrite forallb_forall. intros Hall Hn.
  apply Hall, list_elem_of_In, list_elem_of_lookup. eauto.
Qed.

(** Stripping with the coordinates that [extract_images] found removes the
    image items and nothing else. *)
Lemma strip_extracted messages :
  sole_items_are_objects messages = true →
  strip_from (images_to_remove (extract_images messages)) 0 messages
  = Ok (without_images <$> messages).
Proof.
  intros Hobj. apply strip_from_all_ok. intros n message Hn. simpl.
  pose proof (forallb_lookup _ _ _ _ Hobj Hn) as Hsole. simpl in Hsole.
  unfold strip_message, without_images, remaining, content_items in *.
  destruct (dict_get "content" message) as [[]|] eqn:Hc; try done.
  rewrite filter_content_by_predicate.
  - by rewrite simplify_content_normalised.
  - intros j item Hj. simpl.
    rewrite elem_of_images_to_remove. unfold extract_images. split.
    + intros (item' & Hin).
      apply elem_of_extract_from in Hin as (n' & m' & c' & Hn' & Hm' & Hc' & Hj' & Him).
      simpl in *. by simplify_eq.
    + intros Him. exists item. apply elem_of_extract_from.
      exists n, message, items. done.
Qed.

Lemma extract_content_no_image msg_idx k content :
  extract_content msg_idx k (filter (λ item, is_image_item item = false) content) = [].
Proof.
  revert k. induction content as [|x rest IH]; intros k; [done|].
  rewrite filter_cons. case_decide as Hx; [|apply IH].
  simpl. rewrite Hx. apply IH.
Qed.

Lemma extract_message_without_images msg_idx message :
  sole_text_is_plain (remaining message) = true →
  extract_message msg_idx (without_images message) = [].
Proof.
  intros Hkept. unfold without_images, remaining, content_items in *.
  destruct (dict_get "content" message) as [[]|] eqn:Hc;
    try (unfold extract_message; by rewrite Hc).
  unfold extract_message. rewrite dict_get_set_eq.
  pose proof (extract_content_no_image msg_idx 0 items) as Hnone.
  destruct (filter _ items) as [|x [|y rest]]; simpl; [done| |by destruct x].
  destruct x; try done. simpl in Hkept.
  destruct (eq_str (dict_get "type" fields) "text"); [|done].
  simpl in Hkept. by destruct (dict_get_default "text" (JStr "") fields).
Qed.

Lemma extract_from_without_images k messages :
  sole_texts_are_plain messages = true →
  extract_from k (without_images <$> messages) = [].
Proof.
  revert k. induction messages as [|m rest IH]; intros k Hplain; [done|].
  simpl in *. apply andb_true_iff in Hplain as [Hm Hrest].
  by rewrite extract_message_without_images, IH.
Qed.

End strip_facts.

(** C1 (amended).  For every message list in which no list-typed content
    is left, once its image items are taken out, with a single item that is
    not an object, [extract_images] followed by [rebuild_messages] with the
    extracted coordinates and an empty OCR text returns the message list in
    which exactly the extracted image items are removed: each list-typed
    content becomes the normalised list of its non-image items and every
    other message is unchanged.  If moreover no text item that is left alone
    carries a list as its text, [extract_images] on the rebuilt list returns
    the empty list. *)
Theorem extract_then_rebuild_removes_images (messages : list pydict) :
  sole_items_are_objects messages = true →
  rebuild_messages messages (extract_images messages) ""
  = Ok (without_images <$> messages) ∧
  (sole_texts_are_plain messages = true →
   extract_images (without_images <$> messages) = []).
Proof.
  intros Hobj. split.
  - rewrite rebuild_without_text. by apply strip_extracted.
  - intros Hplain. by apply extract_from_without_images.
Qed.

Lemma extract_then_rebuild_removes_images_witness :
  rebuild_messages samples.conversation (extract_images samples.conversation) ""
  = Ok [samples.message "system" (JStr "sys");
        samples.message "user"
          (JList [samples.text_item "look"; samples.text_item "here"]);
        samples.message "assistant" (JStr "ok");
        samples.message "user" (JStr "")] ∧
  extract_images [samples.message "system" (JStr "sys");
                  samples.message "user"
                    (JList [samples.text_item "look"; samples.text_item "here"]);
                  samples.message "assistant" (JStr "ok");
                  samples.message "user" (JStr "")] = [].
Proof.
  destruct (extract_then_rebuild_removes_images samples.conversation eq_refl)
    as [Hrebuilt Hnone].
  split; [exact Hrebuilt|exact (Hnone eq_refl)].
Defined.

(** C1 as stated fails: a sole text item whose text is a list is collapsed
    to that list, and an image item inside it is then found by
    [extract_images] on the rebuilt messages. *)
Lemma extract_then_rebuild_counterexample :
  extract_images samples.nested_text = [] ∧
  rebuild_messages samples.nested_text (extract_images samples.nested_text) ""
  = Ok [samples.message "user" (JList [samples.image])] ∧
  extract_images [samples.message "user" (JList [samples.image])]
  = [(0, 0, samples.image)].
Proof. repeat split; reflexivity. Qed.

(** Content-shape normalisation of one message, case by case: the shapes
    that the code produces, and the one case in which it raises. *)
Lemma strip_message_shapes
    (remove : gset (nat * nat)) (msg_idx : nat) (message : pydict) :
  match dict_get "content" message with
  | Some (JList content) =>
      let kept := filter_content remove msg_idx 0 content in
      (kept = [] →
       strip_message remove msg_idx message
       = Ok (dict_set "content" (JStr "") message)) ∧
      (∀ d, kept = [JDict d] → eq_str (dict_get "type" d) "text" = true →
       strip_message remove msg_idx message
       = Ok (dict_set "content" (dict_get_default "text" (JStr "") d) message)) ∧
      (∀ d, kept = [JDict d] → eq_str (dict_get "type" d) "text" = false →
       strip_message remove msg_idx message
       = Ok (dict_set "content" (JList kept) message)) ∧
      ((2 ≤ length kept)%nat →
       strip_message remove msg_idx message
       = Ok (dict_set "content" (JList kept) message)) ∧
      (∀ item, kept = [item] → is_dict item = false →
       ∃ msg, strip_message remove msg_idx message = Raise (AttributeError msg))
  | _ => strip_message remove msg_idx message = Ok message
  end.
Proof.
  unfold strip_message.
  destruct (dict_get "content" message) as [[]|]; try done. simpl.
  repeat split.
  - by intros ->.
  - intros d -> Htext. simpl. run_result. by rewrite Htext.
  - intros d -> Htext. simpl. run_result. by rewrite Htext.
  - destruct (filter_content _ _ _ _) as [|x [|y rest]]; simpl; [lia..|done].
  - intros item -> Hitem. rewrite simplify_content_not_object by done.
    simpl. eauto.
Qed.

(** C3 (the code departs from the claim).  After filtering, the content of
    [samples.bare_string_item] is the one-item list holding the bare string
    "abc"; its type tag is not "text", so the content should stay that list.
    The code calls [.get] on the string and raises. *)
Theorem rebuild_bare_string_item_raises :
  extract_images samples.bare_string_item = [(0, 0, samples.image)] ∧
  filter_content (images_to_remove [(0, 0, samples.image)]) 0 0
    [samples.image; JStr "abc"] = [JStr "abc"] ∧
  rebuild_messages samples.bare_string_item [(0, 0, samples.image)] ""
  = Raise (AttributeError "'str' object has no attribute 'get'").
Proof. repeat split; reflexivity. Qed.

(** C10.  [rebuild_messages] is partial: whenever some message has
    list-typed content of which, after filtering, exactly one item remains
    and that item is not a dict, the call raises [AttributeError] instead of
    returning a message list. *)
Theorem rebuild_messages_partial
    (messages : list pydict) (images : list (nat * nat * json))
    (ocr_text : string) (i : nat) (message : pydict) (content : list json)
    (item : json) :
  messages !! i = Some message →
  dict_get "content" message = Some (JList content) →
  filter_content (images_to_remove images) i 0 content = [item] →
  is_dict item = false →
  ∃ msg, rebuild_messages messages images ocr_text = Raise (AttributeError msg).
Proof.
  intros Hi Hc Hkept Hitem.
  assert (Hm : strip_message (images_to_remove images) (0 + i) message
               = Raise (AttributeError
                          ("'" +:+ type_name item +:+ "' object has no attribute 'get'"))).
  { unfold strip_message. simpl. rewrite Hc, Hkept.
    by rewrite simplify_content_not_object. }
  destruct (strip_from_one_raises _ _ _ _ _ _ Hi Hm) as [e He].
  destruct (strip_from_raises _ _ _ _ He) as [msg ->].
  exists msg. unfold rebuild_messages. by rewrite He.
Qed.

Lemma rebuild_messages_partial_witness :
  ∃ msg, rebuild_messages samples.bare_string_item
           (extract_images samples.bare_string_item) "图片1内容：(a cat)"
         = Raise (AttributeError msg).
Proof.
  apply (rebuild_messages_partial samples.bare_string_item
           (extract_images samples.bare_string_item) "图片1内容：(a cat)"
           0 (samples.message "user" (JList [samples.image; JStr "abc"]))
           [samples.image; JStr "abc"] (JStr "abc"));
    reflexivity.
Defined.

(** C6 (amended).  [rebuild_messages] with no image and an empty OCR text
    returns its input whenever every list-typed content has two items or
    more, or is a single object that is not a text item; and
    [format_ocr_results] of the empty list is the empty string. *)
Theorem rebuild_nothing_keeps_stable_shapes (messages : list pydict) :
  shape_stable messages = true →
  rebuild_messages messages [] "" = Ok messages ∧ format_ocr_results [] = "".
Proof.
  intros Hstable. split; [|done].
  rewrite rebuild_without_text.
  rewrite <- (list_fmap_id messages) at 2.
  apply strip_from_all_ok. intros n message Hn. simpl.
  unfold shape_stable in Hstable. rewrite forallb_forall in Hstable.
  specialize (Hstable message). unfold strip_message.
  destruct (dict_get "content" message) as [[]|] eqn:Hc; try done.
  assert (Hshape : keeps_shape items = true).
  { apply Hstable, list_elem_of_In, list_elem_of_lookup. eauto. }
  change (images_to_remove []) with (∅ : gset (nat * nat)).
  rewrite filter_content_nothing.
  assert (Hsimp : simplify_content items = Ok (JList items)).
  { destruct items as [|x [|y rest]]; [done| |done].
    destruct x; try done. simpl in *. run_result.
    by destruct (eq_str (dict_get "type" fields) "text"). }
  rewrite Hsimp. simpl. by rewrite dict_set_same.
Qed.

Lemma rebuild_nothing_keeps_stable_shapes_witness :
  rebuild_messages samples.two_texts [] "" = Ok samples.two_texts ∧
  format_ocr_results [] = "".
Proof. exact (rebuild_nothing_keeps_stable_shapes samples.two_texts eq_refl). Defined.

(** C6 as stated fails: a content list of one text item comes back as a
    bare string although no image was removed. *)
Lemma rebuild_nothing_counterexample :
  rebuild_messages samples.single_text [] ""
  = Ok [samples.message "user" (JStr "hi")] ∧
  rebuild_messages samples.single_text [] "" ≠ Ok samples.single_text.
Proof. split; [reflexivity|discriminate]. Qed.

(** ** The message rebuilder: appending the OCR text *)
Section append_facts.
Implicit Types (messages : list pydict) (idx : nat).

Lemma scan_back_finds_last messages idx message n :
  last_user_at messages idx message → idx < n →
  scan_back messages n = Some idx.
Proof.
  intros (Hidx & Huser & Hlater). induction n as [|n IH]; [lia|].
  intros Hlt. simpl. destruct (decide (n = idx)) as [->|Hne].
  - by rewrite Hidx, Huser.
  - destruct (messages !! n) as [later|] eqn:Hn; [|apply IH; lia].
    rewrite (Hlater n later) by (done || lia). apply IH. lia.
Qed.

Lemma scan_back_no_user messages n :
  (∀ message, message ∈ messages → is_user message = false) →
  scan_back messages n = None.
Proof.
  intros Hnone. induction n as [|n IH]; [done|]. simpl.
  destruct (messages !! n) as [message|] eqn:Hn; [|done].
  rewrite Hnone; [done|]. apply list_elem_of_lookup. eauto.
Qed.

Lemma last_user_idx_found messages idx message :
  last_user_at messages idx message → last_user_idx messages = Some idx.
Proof.
  intros Hlast. eapply scan_back_finds_last; [done|].
  destruct Hlast as [Hidx _]. by eapply lookup_lt_Some.
Qed.

Lemma append_at_last_user messages idx message ocr_text content :
  last_user_at messages idx message →
  appended_content (dict_get_default "content" (JStr "") message) ocr_text
  = Some content →
  append_ocr_text messages ocr_text
  = <[idx := dict_set "content" content message]> messages.
Proof.
  intros Hlast Hcontent. unfold append_ocr_text.
  rewrite (last_user_idx_found _ _ _ Hlast).
  destruct Hlast as [-> _]. by rewrite Hcontent.
Qed.

End append_facts.

(** C2 (amended).  For every message list on which filtering and
    normalisation return, with result [stripped] (what [rebuild_messages]
    returns for an empty OCR text), and every non-empty OCR text,
    [rebuild_messages] returns [stripped] changed at the last message whose
    role is "user", according to the content that message has in [stripped]:
    a non-empty string content is followed by two line feeds and the OCR
    text; an empty string content becomes the OCR text; a list content gains
    one text item holding two line feeds and the OCR text.  When no message
    has the role "user", the message [{role: "user", content: ocr_text}] is
    appended at the end.  Nothing is said of a last user message whose
    content is missing or is neither a string nor a list. *)
Theorem rebuild_appends_ocr_text
    (messages : list pydict) (images : list (nat * nat * json))
    (ocr_text : string) (stripped : list pydict) :
  ocr_text ≠ "" →
  rebuild_messages messages images "" = Ok stripped →
  (∀ idx message, last_user_at stripped idx message →
     (∀ s, dict_get "content" message = Some (JStr s) → s ≠ "" →
        rebuild_messages messages images ocr_text
        = Ok (<[idx := dict_set "content" (JStr (s +:+ nl +:+ nl +:+ ocr_text))
                         message]> stripped)) ∧
     (dict_get "content" message = Some (JStr "") →
        rebuild_messages messages images ocr_text
        = Ok (<[idx := dict_set "content" (JStr ocr_text) message]> stripped)) ∧
     (∀ items, dict_get "content" message = Some (JList items) →
        rebuild_messages messages images ocr_text
        = Ok (<[idx := dict_set "content"
                         (JList (items ++
                                 [JDict [("type", JStr "text");
                                         ("text", JStr (nl +:+ nl +:+ ocr_text))]]))
                         message]> stripped))) ∧
  ((∀ message, message ∈ stripped → is_user message = false) →
     rebuild_messages messages images ocr_text
     = Ok (stripped ++ [[("role", JStr "user"); ("content", JStr ocr_text)]])).
Proof.
  intros Hne Hstripped. rewrite rebuild_without_text in Hstripped.
  rewrite (rebuild_with_text _ _ _ _ Hne Hstripped). split.
  - intros idx message Hlast. repeat split.
    + intros s Hs Hs'. f_equal. apply append_at_last_user; [done|].
      unfold dict_get_default. rewrite Hs. simpl. by destruct s.
    + intros Hs. f_equal. apply append_at_last_user; [done|].
      unfold dict_get_default. by rewrite Hs.
    + intros items Hitems. f_equal. apply append_at_last_user; [done|].
      unfold dict_get_default. by rewrite Hitems.
  - intros Hnone. f_equal. unfold append_ocr_text, last_user_idx.
    by rewrite scan_back_no_user.
Qed.

Lemma rebuild_appends_ocr_text_witness :
  rebuild_messages [samples.message "user" (JStr "hi")] [] "图片1内容：(a cat)"
  = Ok [samples.message "user" (JStr ("hi" +:+ nl +:+ nl +:+ "图片1内容：(a cat)"))] ∧
  rebuild_messages [samples.message "system" (JStr "sys")] [] "图片1内容：(a cat)"
  = Ok [samples.message "system" (JStr "sys");
        samples.message "user" (JStr "图片1内容：(a cat)")].
Proof.
  split.
  - assert (Hlast : last_user_at [samples.message "user" (JStr "hi")] 0
                      (samples.message "user" (JStr "hi"))).
    { repeat split. intros [|j] later Hj; [lia|discriminate]. }
    destruct (rebuild_appends_ocr_text
                [samples.message "user" (JStr "hi")] [] "图片1内容：(a cat)"
                [samples.message "user" (JStr "hi")]
                ltac:(discriminate) eq_refl) as [Hfound _].
    destruct (Hfound 0 _ Hlast) as [Hstring _].
    exact (Hstring "hi" eq_refl ltac:(discriminate)).
  - destruct (rebuild_appends_ocr_text
                [samples.message "system" (JStr "sys")] [] "图片1内容：(a cat)"
                [samples.message "system" (JStr "sys")]
                ltac:(discriminate) eq_refl) as [_ Hnone].
    apply Hnone. intros message Hin.
    apply list_elem_of_singleton in Hin as ->. reflexivity.
Defined.

(** C2 as stated fails: the last message whose role is "user" has null as
    its content, which is neither a string nor a list; the code assigns
    nothing, and the non-empty OCR text appears nowhere in the result, which
    is the same as for an empty OCR text. *)
Lemma rebuild_appends_counterexample :
  rebuild_messages samples.null_content_last
    (extract_images samples.null_content_last) "图片1内容：(a cat)"
  = Ok [samples.message "user" (JStr ""); samples.message "user" JNull] ∧
  rebuild_messages samples.null_content_last
    (extract_images samples.null_content_last) ""
  = Ok [samples.message "user" (JStr ""); samples.message "user" JNull].
Proof. split; reflexivity. Qed.

(** ** The OCR orchestrator *)
Section orchestrator_facts.
Context (cfg : config.Config).
Implicit Types (tasks results : list (result json)) (schedule : list nat).

Lemma settle_lookup tasks schedule (slots : list (option (result json))) i :
  length slots = length tasks →
  foldl (settle tasks) slots schedule !! i
  = if decide (i ∈ schedule) then Some <$> tasks !! i else slots !! i.
Proof.
  revert slots. induction schedule as [|a schedule IH]; intros slots Hlen;
    cbn [foldl].
  - by rewrite decide_False by apply not_elem_of_nil.
  - assert (Hlen' : length (settle tasks slots a) = length tasks).
    { unfold settle. destruct (tasks !! a); [by rewrite length_insert|done]. }
    rewrite (IH _ Hlen').
    destruct (decide (i ∈ schedule)) as [Hin|Hnin].
    + by rewrite decide_True by (by right).
    + destruct (decide (a = i)) as [->|Hne].
      * rewrite decide_True by (by left). unfold settle.
        destruct (tasks !! i) as [outcome|] eqn:Hi; simpl.
        -- apply list_lookup_insert_eq. rewrite Hlen. by eapply lookup_lt_Some.
        -- apply lookup_ge_None. rewrite Hlen. by apply lookup_ge_None.
      * rewrite decide_False by (by intros [?|?]%elem_of_cons).
        unfold settle. destruct (tasks !! a); [|done].
        by rewrite list_lookup_insert_ne.
Qed.

Lemma omap_id_Some tasks : omap id (Some <$> tasks) = tasks.
Proof. induction tasks as [|t tasks IH]; [done|]. simpl. f_equal. exact IH. Qed.

(** Whatever the order of completion, [gather] returns the outcomes in the
    order of the tasks. *)
Lemma gather_in_task_order tasks schedule : gather tasks schedule = tasks.
Proof.
  unfold gather. transitivity (omap id (Some <$> tasks)); [|apply omap_id_Some].
  f_equal.
  apply list_eq. intros i.
  rewrite settle_lookup by apply length_replicate.
  rewrite list_lookup_fmap.
  destruct (decide (i ∈ _ ++ _)) as [Hin|Hnin]; [done|].
  rewrite elem_of_app, elem_of_seq in Hnin.
  assert (length tasks ≤ i)%nat as Hge by lia.
  rewrite (proj2 (lookup_ge_None tasks i) Hge). simpl.
  apply lookup_ge_None. by rewrite length_replicate.
Qed.

Lemma collect_first_failure idx results k e :
  results !! k = Some (Raise e) →
  (∀ j, j < k → ∃ description, results !! j = Some (Ok description)) →
  collect idx results = Raise (surfaced (idx + k) e).
Proof.
  revert idx k. induction results as [|r results IH]; intros idx k Hk Hbefore;
    [done|].
  destruct k as [|k]; simpl in Hk.
  - injection Hk as ->. simpl. by rewrite Nat.add_0_r.
  - destruct (Hbefore 0) as [description Hd]; [lia|].
    simpl in Hd. injection Hd as ->. simpl.
    rewrite (IH (S idx) k Hk).
    + by rewrite Nat.add_succ_r.
    + intros j Hj. apply (Hbefore (S j)). lia.
Qed.

Lemma collect_all_ok idx (descriptions : list json) :
  collect idx (Ok <$> descriptions)
  = Ok (imap (λ n description, (Z.of_nat (idx + n) + 1, description)%Z) descriptions).
Proof.
  revert idx. induction descriptions as [|d descriptions IH]; intros idx; [done|].
  simpl. rewrite IH. simpl. rewrite Nat.add_0_r. do 2 f_equal.
  apply imap_ext. intros n x _. simpl. do 2 f_equal. lia.
Qed.

Lemma getitem_key_not_ocr_error x key message i :
  getitem_key x key ≠ Raise (OCRError message i).
Proof. destruct x; simpl; try done. by destruct (dict_get key fields). Qed.

Lemma getitem_0_not_ocr_error x message i :
  getitem_0 x ≠ Raise (OCRError message i).
Proof. destruct x as [| | | |[|]|[|]|]; simpl; done. Qed.

Lemma response_text_not_ocr_error body message i :
  response_text body ≠ Raise (OCRError message i).
Proof.
  unfold response_text.
  destruct (getitem_key body "choices") as [choices|] eqn:E1; simpl;
    [|intros [= ->]; by eapply getitem_key_not_ocr_error].
  destruct (getitem_0 choices) as [first|] eqn:E2; simpl;
    [|intros [= ->]; by eapply getitem_0_not_ocr_error].
  destruct (getitem_key first "message") as [msg|] eqn:E3; simpl;
    [|intros [= ->]; by eapply getitem_key_not_ocr_error].
  apply getitem_key_not_ocr_error.
Qed.

(** An [OCRError] raised by [call_ocr] carries the ordinal it was given. *)
Lemma call_ocr_error_ordinal post image_content image_index message i :
  call_ocr cfg post image_content image_index = Raise (OCRError message i) →
  i = image_index.
Proof.
  unfold call_ocr. destruct (post _) as [response| |]; [|congruence..].
  destruct (negb _); [congruence|].
  destruct (httpx.resp_json response) as [|body]; [done|].
  destruct (response_text body) as [|[]] eqn:E; try congruence.
  by apply response_text_not_ocr_error in E.
Qed.

End orchestrator_facts.

(** C4.  In concurrent mode, whatever the order in which the OCR calls
    complete ([schedule]), if the call for the image at position [k] fails
    and the calls for all images before it succeed, then [process_images]
    raises an [OCRError] tagged with the ordinal [k + 1], the lowest ordinal
    among the failed images; when the failure of that call is an [OCRError],
    it is the one raised. *)
Theorem parallel_raises_lowest_failed_ordinal
    (cfg : config.Config) (post : nat → httpx.request → httpx.exchange)
    (schedule : list nat) (images : list (nat * nat * json))
    (k : nat) (image : nat * nat * json) (e : exn) :
  config.OCR_PARALLEL cfg = true →
  images !! k = Some image →
  call_ocr cfg (post k) image.2 (Z.of_nat k + 1) = Raise e →
  (∀ j earlier, j < k → images !! j = Some earlier →
     is_ok (call_ocr cfg (post j) earlier.2 (Z.of_nat j + 1)) = true) →
  ∃ message,
    process_images cfg post schedule images
    = Raise (OCRError message (Z.of_nat k + 1)) ∧
    (∀ m i, e = OCRError m i → message = m).
Proof.
  intros Hpar Hk Hfail Hbefore.
  assert (Hraise : process_images cfg post schedule images = Raise (surfaced k e)).
  { unfold process_images. destruct images as [|first rest] eqn:Himages; [done|].
    rewrite <- Himages in *. rewrite Hpar, gather_in_task_order.
    rewrite (collect_first_failure 0 _ k e); [done| |].
    - rewrite list_lookup_imap, Hk. simpl. by rewrite Hfail.
    - intros j Hj.
      destruct (lookup_lt_is_Some_2 images j) as [earlier Hearlier].
      { apply lookup_lt_Some in Hk. lia. }
      specialize (Hbefore j earlier Hj Hearlier).
      rewrite list_lookup_imap, Hearlier. simpl.
      destruct (call_ocr cfg (post j) _ _) as [description|]; [eauto|done]. }
  rewrite Hraise. destruct e; simpl; eauto; try (eexists; split; [done|]; done).
  apply call_ocr_error_ordinal in Hfail as ->.
  eexists. split; [done|]. by intros m i [= -> _].
Qed.

Lemma parallel_raises_lowest_failed_ordinal_witness :
  process_images config.defaults samples.first_and_third_fail [2; 1; 0]
    samples.three_images
  = Raise (OCRError "OCR API returned status 500: overloaded" 1).
Proof.
  destruct (parallel_raises_lowest_failed_ordinal config.defaults
              samples.first_and_third_fail [2; 1; 0] samples.three_images
              0 (0, 0, samples.image)
              (OCRError "OCR API returned status 500: overloaded" 1)
              eq_refl eq_refl eq_refl)
    as (message & Hraised & Hsame).
  { intros j earlier Hj. lia. }
  rewrite Hraised. by rewrite (Hsame _ _ eq_refl).
Defined.

(** The three-image scenario of the specification, for every order of
    completion: images 1 and 3 fail, image 2 succeeds, and the failure raised
    is that of image 1. *)
Example first_and_third_fail_any_schedule (schedule : list nat) :
  process_images config.defaults samples.first_and_third_fail schedule
    samples.three_images
  = Raise (OCRError "OCR API returned status 500: overloaded" 1).
Proof.
  unfold process_images, samples.three_images.
  change (config.OCR_PARALLEL config.defaults) with true. cbv iota.
  by rewrite gather_in_task_order.
Qed.

(** ** The OCR client *)
Section client_facts.
Context (cfg : config.Config).

Lemma response_text_description body description :
  has_description body description → response_text body = Ok description.
Proof.
  intros (fields & rest & choice & message & -> & Hchoices & Hmessage & Hcontent).
  unfold response_text. simpl. rewrite Hchoices. simpl.
  rewrite Hmessage. simpl. by rewrite Hcontent.
Qed.

Lemma description_response_text body description :
  response_text body = Ok description → has_description body description.
Proof.
  unfold response_text, has_description.
  destruct body as [| | | | | |fields]; try done. simpl.
  destruct (dict_get "choices" fields) as [choices|] eqn:Hchoices; [|done]. simpl.
  destruct choices as [| | | |[|]|[|first rest]|]; try done. simpl.
  destruct first as [| | | | | |choice]; try done. simpl.
  destruct (dict_get "message" choice) as [message|] eqn:Hmessage; [|done]. simpl.
  destruct message as [| | | | | |message]; try done. simpl.
  destruct (dict_get "content" message) as [content|] eqn:Hcontent; [|done].
  intros [= ->]. by exists fields, rest, choice, message.
Qed.

Lemma lacks_description_response_text body :
  lacks_description body = true ↔
  ∃ e, response_text body = Raise (KeyError e) ∨
       response_text body = Raise (IndexError e).
Proof.
  unfold response_text, lacks_description.
  destruct body as [| | | | | |fields]; simpl;
    try (split; [done|by intros [? [?|?]]]).
  destruct (dict_get "choices" fields) as [choices|]; simpl; [|split; eauto].
  destruct choices as [| | | |[|]|[|first rest]|]; simpl;
    try (split; [done|by intros [? [?|?]]]); try (split; eauto; fail).
  destruct first as [| | | | | |choice]; simpl;
    try (split; [done|by intros [? [?|?]]]).
  destruct (dict_get "message" choice) as [message|]; simpl; [|split; eauto].
  destruct message as [| | | | | |message]; simpl;
    try (split; [done|by intros [? [?|?]]]).
  destruct (dict_get "content" message); simpl; [|split; eauto].
  split; [done|by intros [? [?|?]]].
Qed.

End client_facts.

(** C5 (amended).  [call_ocr] fails with an [OCRError] carrying the image's
    ordinal if the endpoint answers with a status other than 200 (the reason
    then holds the status and the body), if it answers 200 with a JSON body
    in which the path [choices[0].message.content] ends at an absent key or
    an empty sequence, if the call times out, or if a transport error
    occurs; it fails with an [OCRError] only if the status is not 200, or
    the body of the 200 answer lacks [choices[0].message.content], or the
    call timed out, or a transport error occurred.  On status 200 with a body
    that has [choices[0].message.content] it returns that description. *)
Theorem call_ocr_outcomes
    (cfg : config.Config) (post : httpx.request → httpx.exchange)
    (image_content : json) (image_index : Z) :
  (∀ response,
     post (ocr_request cfg image_content) = httpx.Responded response →
     httpx.status_code response ≠ 200%Z →
     call_ocr cfg post image_content image_index
     = Raise (OCRError ("OCR API returned status "
                        +:+ pretty (httpx.status_code response)
                        +:+ ": " +:+ httpx.text response) image_index)) ∧
  (∀ response body,
     post (ocr_request cfg image_content) = httpx.Responded response →
     httpx.status_code response = 200%Z →
     httpx.resp_json response = inr body →
     lacks_description body = true →
     ∃ reason, call_ocr cfg post image_content image_index
               = Raise (OCRError reason image_index)) ∧
  (∀ msg,
     post (ocr_request cfg image_content) = httpx.TimeoutException msg →
     ∃ reason, call_ocr cfg post image_content image_index
               = Raise (OCRError reason image_index)) ∧
  (∀ msg,
     post (ocr_request cfg image_content) = httpx.RequestError msg →
     ∃ reason, call_ocr cfg post image_content image_index
               = Raise (OCRError reason image_index)) ∧
  (∀ reason i,
     call_ocr cfg post image_content image_index = Raise (OCRError reason i) →
     i = image_index ∧
     ((∃ response,
         post (ocr_request cfg image_content) = httpx.Responded response ∧
         httpx.status_code response ≠ 200%Z) ∨
      (∃ response,
         post (ocr_request cfg image_content) = httpx.Responded response ∧
         httpx.status_code response = 200%Z ∧
         ∀ body description, httpx.resp_json response = inr body →
                             ¬ has_description body description) ∨
      (∃ msg, post (ocr_request cfg image_content) = httpx.TimeoutException msg) ∨
      (∃ msg, post (ocr_request cfg image_content) = httpx.RequestError msg))) ∧
  (∀ response body description,
     post (ocr_request cfg image_content) = httpx.Responded response →
     httpx.status_code response = 200%Z →
     httpx.resp_json response = inr body →
     has_description body description →
     call_ocr cfg post image_content image_index = Ok description).
Proof.
  split; [|split; [|split; [|split; [|split]]]].
  - intros response Hpost Hne. unfold call_ocr. rewrite Hpost.
    by destruct (Z.eqb_spec (httpx.status_code response) 200).
  - intros response body Hpost H200 Hjson Hlacks.
    unfold call_ocr. rewrite Hpost, H200, Hjson. simpl.
    apply lacks_description_response_text in Hlacks as [e [-> | ->]]; eauto.
  - intros msg Hpost. unfold call_ocr. rewrite Hpost. eauto.
  - intros msg Hpost. unfold call_ocr. rewrite Hpost. eauto.
  - intros reason i Hraise.
    split; [by eapply call_ocr_error_ordinal|].
    unfold call_ocr in Hraise.
    destruct (post (ocr_request cfg image_content)) as [response|msg|msg];
      [|right; right; eauto..].
    destruct (Z.eqb_spec (httpx.status_code response) 200) as [H200|Hne];
      [|left; eauto].
    right. left. exists response. repeat split; [done|].
    intros body description Hjson Hdesc. simpl in Hraise.
    rewrite Hjson, (response_text_description _ _ Hdesc) in Hraise. done.
  - intros response body description Hpost H200 Hjson Hdesc.
    unfold call_ocr. rewrite Hpost, H200, Hjson. simpl.
    by rewrite (response_text_description _ _ Hdesc).
Qed.

Lemma call_ocr_outcomes_witness :
  call_ocr config.defaults
    (λ _, samples.answer 200 "" (inr (samples.description_body "a red ball")))
    samples.image 1
  = Ok (JStr "a red ball") ∧
  call_ocr config.defaults
    (λ _, samples.answer 404 "not found" (inl "Expecting value"))
    samples.image 1
  = Raise (OCRError "OCR API returned status 404: not found" 1).
Proof.
  split.
  - apply (proj2 (proj2 (proj2 (proj2 (proj2 (call_ocr_outcomes config.defaults
             (λ _, samples.answer 200 "" (inr (samples.description_body "a red ball")))
             samples.image 1)))))
             _ (samples.description_body "a red ball") (JStr "a red ball")
             eq_refl eq_refl eq_refl).
    unfold has_description, samples.description_body. eauto 10.
  - apply (proj1 (call_ocr_outcomes config.defaults
             (λ _, samples.answer 404 "not found" (inl "Expecting value"))
             samples.image 1) _ eq_refl).
    discriminate.
Defined.

(** C5 as stated fails: status 201 is a 2xx status and the body is well
    formed, yet the call fails with an [OCRError]. *)
Lemma call_ocr_counterexample :
  has_description (samples.description_body "a red ball") (JStr "a red ball") ∧
  call_ocr config.defaults
    (λ _, samples.answer 201 "created" (inr (samples.description_body "a red ball")))
    samples.image 1
  = Raise (OCRError "OCR API returned status 201: created" 1).
Proof.
  split; [|reflexivity].
  unfold has_description, samples.description_body. eauto 10.
Qed.

(** ** The transparent proxy *)
Section header_facts.
Implicit Types (items acc : list (string * string)) (keep : string → bool).

Lemma dict_get_app {V} name (d1 d2 : list (string * V)) :
  dict_get name (d1 ++ d2)
  = match dict_get name d1 with Some v => Some v | None => dict_get name d2 end.
Proof.
  induction d1 as [|[k v] d1 IH]; simpl; [done|].
  by destruct (String.eqb k name).
Qed.

(** The dict built by assigning, in order, the items whose name is kept. *)
Lemma dict_get_foldl_set keep items acc name :
  dict_get name
    (foldl (λ headers item,
              if keep item.1 then dict_set item.1 item.2 headers else headers)
           acc items)
  = if keep name
    then match last_value name items with
         | Some v => Some v
         | None => dict_get name acc
         end
    else dict_get name acc.
Proof.
  unfold last_value. revert acc.
  induction items as [|[k v] items IH]; intros acc; cbn [foldl].
  - by destruct (keep name).
  - rewrite IH, reverse_cons, dict_get_app. simpl.
    destruct (String.eqb k name) eqn:Ek.
    + apply String.eqb_eq in Ek as ->.
      destruct (keep name); [|done].
      destruct (dict_get name (reverse items)); [done|].
      by rewrite dict_get_set_eq.
    + assert (k ≠ name) as Hne by (intros ->; by rewrite String.eqb_refl in Ek).
      assert (dict_get name (if keep k then dict_set k v acc else acc)
              = dict_get name acc) as ->.
      { destruct (keep k); [|done]. by apply dict_get_set_ne. }
      by destruct (keep name), (dict_get name (reverse items)).
Qed.

Lemma dict_set_fresh {V} k (v : V) (d : list (string * V)) :
  k ∉ d.*1 → dict_set k v d = d ++ [(k, v)].
Proof.
  induction d as [|[k' w] d IH]; simpl; [done|].
  rewrite not_elem_of_cons. intros [Hne Hnin].
  destruct (String.eqb k' k) eqn:E.
  - apply String.eqb_eq in E. congruence.
  - by rewrite IH.
Qed.

(** When no name repeats, the dict holds the kept items as they came. *)
Lemma foldl_set_distinct keep items acc :
  NoDup (acc.*1 ++ items.*1) →
  foldl (λ headers item,
           if keep item.1 then dict_set item.1 item.2 headers else headers)
        acc items
  = acc ++ filter (λ item, keep item.1 = true) items.
Proof.
  revert acc. induction items as [|[k v] items IH]; intros acc Hnodup; cbn [foldl].
  - by rewrite filter_nil, app_nil_r.
  - rewrite fmap_cons in Hnodup. simpl in Hnodup.
    apply NoDup_app in Hnodup as (Hacc & Hdisj & Hitems).
    apply NoDup_cons in Hitems as [Hk Hitems].
    assert (k ∉ acc.*1) as Hfresh.
    { intros Hin. apply (Hdisj k Hin). by left. }
    rewrite filter_cons. simpl. destruct (keep k) eqn:Hkeep.
    + rewrite decide_True by done. rewrite dict_set_fresh by done.
      rewrite IH; [by rewrite <- app_assoc|].
      rewrite fmap_app. simpl. rewrite <- app_assoc. simpl.
      apply NoDup_app. repeat split; [done| |by apply NoDup_cons].
      intros x Hx. specialize (Hdisj x Hx). done.
    + rewrite decide_False by congruence. apply IH.
      apply NoDup_app. repeat split; [done| |done].
      intros x Hx Hin. apply (Hdisj x Hx). by right.
Qed.

End header_facts.

Section passthrough_facts.

Lemma hop_by_hop_elem name :
  name ∈ proxy.hop_by_hop ↔ name ∈ hop_by_hop_names.
Proof.
  unfold proxy.hop_by_hop, hop_by_hop_names.
  rewrite !elem_of_union, !elem_of_singleton, !elem_of_cons, elem_of_nil.
  tauto.
Qed.

Lemma forwarded_headers_get items name :
  dict_get name (proxy.forwarded_headers items)
  = if bool_decide (lower name ∈ transport_names) then None
    else last_value name items.
Proof.
  etrans; [exact (dict_get_foldl_set
             (λ k, negb (bool_decide (lower k ∈ ["host"; "content-length"])))
             items [] name)|].
  unfold transport_names. destruct (bool_decide _); simpl; [done|].
  by destruct (last_value name items).
Qed.

Lemma relayed_headers_get items name :
  dict_get name (proxy.relayed_headers items)
  = if bool_decide (lower name ∈ hop_by_hop_names) then None
    else last_value name items.
Proof.
  etrans; [exact (dict_get_foldl_set
             (λ k, negb (bool_decide (lower k ∈ proxy.hop_by_hop)))
             items [] name)|].
  rewrite (bool_decide_ext _ _ (hop_by_hop_elem (lower name))).
  destruct (bool_decide _); simpl; [done|].
  by destruct (last_value name items).
Qed.

Lemma forwarded_headers_distinct items :
  NoDup items.*1 →
  proxy.forwarded_headers items
  = filter (λ item, lower item.1 ∉ transport_names) items.
Proof.
  intros Hnodup.
  etrans; [exact (foldl_set_distinct
             (λ k, negb (bool_decide (lower k ∈ ["host"; "content-length"])))
             items [] Hnodup)|].
  simpl. apply list_filter_iff. intros [k v]. simpl.
  by rewrite negb_true_iff, bool_decide_eq_false.
Qed.

Lemma relayed_headers_distinct items :
  NoDup items.*1 →
  proxy.relayed_headers items
  = filter (λ item, lower item.1 ∉ hop_by_hop_names) items.
Proof.
  intros Hnodup.
  etrans; [exact (foldl_set_distinct
             (λ k, negb (bool_decide (lower k ∈ proxy.hop_by_hop)))
             items [] Hnodup)|].
  simpl. apply list_filter_iff. intros [k v]. simpl.
  by rewrite negb_true_iff, bool_decide_eq_false, hop_by_hop_elem.
Qed.

End passthrough_facts.

(** What the transparent proxy does with headers, for every request.  The
    headers sent upstream hold no Host and no Content-Length and give every
    other inbound header name the value of its last header line; when no
    name repeats they are the inbound headers without those two, as they
    came.  For an upstream response that is not an event stream, body and
    status are relayed as they are, and the relayed headers hold none of
    connection, keep-alive, transfer-encoding, te, trailers and upgrade and
    give every other name its value in the response; when no name repeats
    they are the response headers without those six, as they came. *)
Lemma passthrough_headers_characterised
    (cfg : config.Config) (send : httpx.request → httpx.exchange)
    (upstream_url : string) (request : starlette.Request) :
  let outgoing := proxy.passthrough_request cfg upstream_url request in
  (∀ name, lower name ∈ transport_names →
           dict_get name (httpx.headers outgoing) = None) ∧
  (∀ name, lower name ∉ transport_names →
           dict_get name (httpx.headers outgoing)
           = last_value name (starlette.headers request)) ∧
  (NoDup (starlette.headers request).*1 →
   httpx.headers outgoing
   = filter (λ item, lower item.1 ∉ transport_names) (starlette.headers request)) ∧
  (∀ response,
     send outgoing = httpx.Responded response →
     contains (default "" (httpx.headers_get "content-type"
                             (httpx.resp_headers response)))
       "text/event-stream" = false →
     ∃ relayed,
       proxy.passthrough cfg send upstream_url request
       = Ok (proxy.Response (httpx.text response) (httpx.status_code response)
               relayed
               (httpx.headers_get "content-type" (httpx.resp_headers response))) ∧
       (∀ name, lower name ∈ hop_by_hop_names → dict_get name relayed = None) ∧
       (∀ name, lower name ∉ hop_by_hop_names →
                dict_get name relayed
                = last_value name (httpx.resp_headers response)) ∧
       (NoDup (httpx.resp_headers response).*1 →
        relayed = filter (λ item, lower item.1 ∉ hop_by_hop_names)
                    (httpx.resp_headers response))).
Proof.
  simpl. repeat split.
  - intros name Hin. rewrite forwarded_headers_get.
    by rewrite bool_decide_eq_true_2.
  - intros name Hnin. rewrite forwarded_headers_get.
    by rewrite bool_decide_eq_false_2.
  - apply forwarded_headers_distinct.
  - intros response Hsend Hplain.
    exists (proxy.relayed_headers (httpx.resp_headers response)).
    repeat split.
    + unfold proxy.passthrough, proxy.perform. rewrite Hsend. simpl.
      by rewrite Hplain.
    + intros name Hin. rewrite relayed_headers_get.
      by rewrite bool_decide_eq_true_2.
    + intros name Hnin. rewrite relayed_headers_get.
      by rewrite bool_decide_eq_false_2.
    + apply relayed_headers_distinct.
Qed.

Example passthrough_headers_distinct_names :
  httpx.headers
    (proxy.passthrough_request config.defaults "http://up/v1/models"
       samples.models_with_query)
  = [("authorization", "Bearer t")] ∧
  proxy.passthrough config.defaults samples.json_upstream "http://up/v1/models"
    samples.models_with_query
  = Ok (proxy.Response "{}" 200
          [("content-type", "application/json"); ("x-request-id", "42")]
          (Some "application/json")).
Proof.
  destruct (passthrough_headers_characterised config.defaults samples.json_upstream
              "http://up/v1/models" samples.models_with_query)
    as (_ & _ & Hforwarded & Hrelayed).
  split.
  - rewrite Hforwarded; [reflexivity|].
    apply (bool_decide_unpack _). reflexivity.
  - destruct (Hrelayed _ eq_refl eq_refl) as (relayed & -> & _ & _ & Hsame).
    rewrite Hsame; [reflexivity|].
    apply (bool_decide_unpack _). reflexivity.
Qed.

(** C8 (the code departs from the claim).  The request
    [samples.repeated_header] has two Accept header lines.  Neither is Host
    or Content-Length, so both should be sent upstream unchanged; the dict
    that collects the headers keeps only the last one. *)
Theorem passthrough_drops_repeated_header
    (cfg : config.Config) (upstream_url : string) :
  starlette.headers samples.repeated_header
  = [("host", "proxy"); ("accept", "text/html"); ("accept", "application/json");
     ("content-length", "0")] ∧
  httpx.headers (proxy.passthrough_request cfg upstream_url samples.repeated_header)
  = [("accept", "application/json")].
Proof. split; reflexivity. Qed.

(** ** The router *)

(** C9 (the code departs from the claim).  A POST to
    [/http://up/v1/chat/completions?api-version=1] is a chat-completions
    request that carries a query string.  The handler computes the path with
    the query string appended and never uses it: the call to the upstream is
    made with the URL without the query string and with no parameters. *)
Theorem chat_request_drops_query_string
    (py_str : json → string) (ocr_post : nat → httpx.request → httpx.exchange)
    (schedule : list nat) :
  starlette.query_params samples.chat_with_query = "api-version=1" ∧
  main.proxy_handler config.defaults py_str ocr_post schedule
    samples.echo_upstream samples.chat_with_query "http://up/v1/chat/completions"
  = Ok (proxy.Response "http://up/v1/chat/completions" 200 [] None).
Proof. split; reflexivity. Qed.

(** The passthrough branch does hand the query string to the client. *)
Example passthrough_keeps_query_string
    (py_str : json → string) (ocr_post : nat → httpx.request → httpx.exchange)
    (schedule : list nat) :
  main.proxy_handler config.defaults py_str ocr_post schedule
    samples.echo_upstream samples.models_with_query "http://up/v1/models"
  = Ok (proxy.Response "http://up/v1/models?api-version=1" 200 [] None).
Proof. reflexivity. Qed.

(** Every call of the forwarder is made without query parameters. *)
Lemma post_request_no_params cfg url payload headers :
  httpx.params (proxy.post_request cfg url payload headers) = None.
Proof. reflexivity. Qed.

(** * Further properties of the sources *)

(** ** Strings *)
Section string_facts.
Implicit Types (s p q : string).

Lemma append_cons c s p : String c s +:+ p = String c (s +:+ p).
Proof. reflexivity. Qed.

Lemma append_nil_r s : s +:+ "" = s.
Proof. induction s as [|c s IH]; [done|]. by rewrite append_cons, IH. Qed.

Lemma append_assoc s p q : (s +:+ p) +:+ q = s +:+ (p +:+ q).
Proof. induction s as [|c s IH]; [done|]. by rewrite !append_cons, IH. Qed.

Lemma prefix_append p q : String.prefix p (p +:+ q) = true.
Proof.
  induction p as [|c p IH]; [by destruct q|].
  rewrite append_cons. simpl. by destruct (ascii_dec c c).
Qed.

Lemma rev_app_append s p : String.rev_app s p = String.rev s +:+ p.
Proof.
  unfold String.rev. revert p. induction s as [|c s IH]; intros p; simpl; [done|].
  rewrite (IH (String c p)), (IH (String c "")). by rewrite append_assoc.
Qed.

Lemma rev_cons c s : String.rev (String c s) = String.rev s +:+ String c "".
Proof. unfold String.rev. simpl. by rewrite rev_app_append. Qed.

Lemma rev_append s p : String.rev (s +:+ p) = String.rev p +:+ String.rev s.
Proof.
  induction s as [|c s IH].
  - change (String.rev "") with "". by rewrite append_nil_r.
  - by rewrite append_cons, !rev_cons, IH, append_assoc.
Qed.

Lemma rev_involutive s : String.rev (String.rev s) = s.
Proof.
  induction s as [|c s IH]; [done|].
  by rewrite rev_cons, rev_append, IH.
Qed.

Lemma rstrip_slash_append_slash s : rstrip_slash (s +:+ "/") = rstrip_slash s.
Proof. unfold rstrip_slash. rewrite rev_append. reflexivity. Qed.

End string_facts.

(** ** The router: parsing and classifying the path *)

(** X8.  [parse_upstream_url] accepts exactly the paths that are an upstream
    URL starting with "http://" or "https://", bare or behind one leading
    slash, and returns that URL; so embedding a URL in the path and parsing
    the path gives the URL back, and a second leading slash is refused. *)
Theorem parse_upstream_url_exact (path url : string) :
  main.parse_upstream_url path = Some url ↔
  (path = url ∨ path = "/" +:+ url) ∧
  (startswith url "http://" = true ∨ startswith url "https://" = true).
Proof.
  unfold main.parse_upstream_url. split.
  - intros Hparse.
    assert (∀ rest, (if startswith rest "http://" || startswith rest "https://"
                     then Some rest else None) = Some url →
                    rest = url ∧ (startswith url "http://" = true ∨
                                  startswith url "https://" = true)) as Hif.
    { intros rest. destruct (startswith rest "http://") eqn:E1; simpl.
      - intros [= <-]. by split; [|left].
      - destruct (startswith rest "https://") eqn:E2; [|done].
        intros [= <-]. by split; [|right]. }
    destruct path as [|c rest].
    { apply (Hif "") in Hparse as [<- ?]. by split; [left|]. }
    destruct (Ascii.eqb_spec c "/") as [->|Hc].
    + apply Hif in Hparse as [<- ?]. split; [by right|done].
    + assert ((match String c rest with
               | String "/"%char r => r
               | _ => String c rest
               end) = String c rest) as Hsame.
      { destruct c as [[] [] [] [] [] [] [] []]; try done. }
      rewrite Hsame in Hparse. apply Hif in Hparse as [<- ?]. by split; [left|].
  - intros [[-> | ->] Hscheme].
    + assert ((match url with
               | String "/"%char r => r
               | _ => url
               end) = url) as ->.
      { destruct url as [|c rest]; [done|].
        destruct c as [[] [] [] [] [] [] [] []]; try done.
        by destruct Hscheme. }
      by destruct Hscheme as [-> | ->]; [|rewrite orb_true_r].
    + change ("/" +:+ url) with (String "/" url).
      by destruct Hscheme as [-> | ->]; [|rewrite orb_true_r].
Qed.

(** X9.  Trailing slashes do not matter to [is_chat_completions_path], and
    every URL that ends with "v1/chat/completions" is a chat-completions
    path, whatever precedes it. *)
Theorem is_chat_completions_path_suffix (url : string) :
  main.is_chat_completions_path (url +:+ "/") = main.is_chat_completions_path url ∧
  main.is_chat_completions_path (url +:+ "v1/chat/completions") = true.
Proof.
  unfold main.is_chat_completions_path. split.
  - by rewrite rstrip_slash_append_slash.
  - unfold endswith, rstrip_slash. rewrite rev_append.
    set (r := String.rev "v1/chat/completions").
    assert (lstrip_slash (r +:+ String.rev url) = r +:+ String.rev url) as ->
      by reflexivity.
    rewrite rev_involutive. apply prefix_append.
Qed.

(** ** Detection and formatting *)

(** X1.  [has_images] and [extract_images] agree: the first answers [False]
    exactly when the second finds nothing. *)
Theorem has_images_false_iff_nothing_extracted (messages : list pydict) :
  has_images messages = false ↔ extract_images messages = [].
Proof.
  split.
  - intros Hnone. destruct (extract_images messages) as [|[[i j] item] rest] eqn:E;
      [done|].
    assert (has_images messages = true) as Hsome; [|congruence].
    apply has_images_extract. exists i, j, item. rewrite E. by left.
  - intros Hnil. destruct (has_images messages) eqn:E; [|done].
    apply has_images_extract in E as (i & j & item & Hin).
    rewrite Hnil in Hin. by apply elem_of_nil in Hin.
Qed.

Lemma format_line_nonempty entry : ∃ c s, format_line entry = String c s.
Proof. unfold format_line. eexists _, _. reflexivity. Qed.

(** X2.  [format_ocr_results] returns the empty string only for the empty
    list, so the text built from at least one OCR result always passes the
    test [if ocr_text:] of [rebuild_messages]. *)
Theorem format_ocr_results_empty_iff (ocr_results : list (Z * string)) :
  format_ocr_results ocr_results = "" ↔ ocr_results = [].
Proof.
  split; [|by intros ->].
  destruct ocr_results as [|entry rest]; [done|].
  unfold format_ocr_results. rewrite fmap_cons.
  destruct (format_line_nonempty entry) as (c & s & ->).
  simpl. by destruct (format_line <$> rest).
Qed.

(** ** The OCR orchestrator: results and the serial mode *)
Section results_facts.
Context (cfg : config.Config).

Lemma collect_ok idx (tasks : list (result json)) results :
  collect idx tasks = Ok results →
  length results = length tasks ∧
  ∀ i task, tasks !! i = Some task →
    ∃ description, task = Ok description ∧
      results !! i = Some ((Z.of_nat (idx + i) + 1)%Z, description).
Proof.
  revert idx results. induction tasks as [|t tasks IH]; intros idx results.
  - intros [= <-]. split; [done|]. intros i task Hi. done.
  - simpl. destruct t as [d|e]; [|done].
    destruct (collect (S idx) tasks) as [rest|] eqn:E; [|done].
    simpl. intros [= <-]. destruct (IH _ _ E) as [Hlen Hall].
    split; [simpl; by rewrite Hlen|].
    intros [|i] task Hi; simpl in Hi.
    + injection Hi as <-. exists d. by rewrite Nat.add_0_r.
    + destruct (Hall i task Hi) as (description & -> & Hres).
      exists description. split; [done|]. simpl.
      by replace (idx + S i) with (S idx + i) by lia.
Qed.

Lemma serial_ok post idx (images : list (nat * nat * json)) results :
  serial cfg post idx images = Ok results →
  length results = length images ∧
  ∀ i image, images !! i = Some image →
    ∃ description,
      call_ocr cfg (post (idx + i)) image.2 (Z.of_nat (idx + i) + 1) = Ok description ∧
      results !! i = Some ((Z.of_nat (idx + i) + 1)%Z, description).
Proof.
  revert idx results. induction images as [|[[mi ci] img] images IH];
    intros idx results.
  - intros [= <-]. split; [done|]. intros i image Hi. done.
  - simpl. destruct (call_ocr cfg (post idx) img _) as [d|] eqn:Hcall; [|done].
    simpl. destruct (serial cfg post (S idx) images) as [rest|] eqn:E; [|done].
    simpl. intros [= <-]. destruct (IH _ _ E) as [Hlen Hall].
    split; [simpl; by rewrite Hlen|].
    intros [|i] image Hi; simpl in Hi.
    + injection Hi as <-. exists d. by rewrite Nat.add_0_r.
    + destruct (Hall i image Hi) as (description & Hd & Hres).
      exists description. replace (idx + S i) with (S idx + i) by lia. done.
Qed.

Lemma serial_first_failure post idx (images : list (nat * nat * json)) k image e :
  images !! k = Some image →
  call_ocr cfg (post (idx + k)) image.2 (Z.of_nat (idx + k) + 1) = Raise e →
  (∀ j earlier, j < k → images !! j = Some earlier →
     is_ok (call_ocr cfg (post (idx + j)) earlier.2 (Z.of_nat (idx + j) + 1)) = true) →
  serial cfg post idx images = Raise e.
Proof.
  revert idx k. induction images as [|[[mi ci] img] images IH];
    intros idx k Hk Hfail Hbefore; [done|].
  destruct k as [|k]; simpl in Hk.
  - injection Hk as <-. rewrite Nat.add_0_r in Hfail. simpl in *.
    by rewrite Hfail.
  - pose proof (Hbefore 0 (mi, ci, img) ltac:(lia) eq_refl) as Hfirst.
    rewrite Nat.add_0_r in Hfirst. simpl in *.
    destruct (call_ocr cfg (post idx) img _) as [d|]; [|done]. simpl.
    rewrite (IH (S idx) k); [done|done| |].
    + by replace (S idx + k) with (idx + S k) by lia.
    + intros j earlier Hj Hearlier.
      replace (S idx + j) with (idx + S j) by lia.
      apply (Hbefore (S j)); [lia|done].
Qed.

End results_facts.

(** X3.  When [process_images] returns, in either mode and whatever the order
    of completion, it returns one entry per image, in the order of the
    images, labelled with the ordinals 1, 2, ..., each holding the
    description that the call for that image returned. *)
Theorem process_images_returns_in_image_order
    (cfg : config.Config) (post : nat → httpx.request → httpx.exchange)
    (schedule : list nat) (images : list (nat * nat * json))
    (ocr_results : list (Z * json)) :
  process_images cfg post schedule images = Ok ocr_results →
  length ocr_results = length images ∧
  ∀ i image, images !! i = Some image →
    ∃ description,
      call_ocr cfg (post i) image.2 (Z.of_nat i + 1) = Ok description ∧
      ocr_results !! i = Some ((Z.of_nat i + 1)%Z, description).
Proof.
  unfold process_images. destruct images as [|first rest] eqn:Himages.
  { intros [= <-]. split; [done|]. intros i image Hi. done. }
  rewrite <- Himages. clear Himages first rest.
  destruct (config.OCR_PARALLEL cfg).
  - rewrite gather_in_task_order. intros Hcollect.
    apply collect_ok in Hcollect as [Hlen Hall].
    rewrite length_imap in Hlen. split; [done|].
    intros i image Hi.
    destruct (Hall i (call_ocr cfg (post i) image.2 (Z.of_nat i + 1)))
      as (description & Hd & Hres).
    { by rewrite list_lookup_imap, Hi. }
    exists description. done.
  - intros Hserial. apply serial_ok in Hserial as [Hlen Hall].
    split; [done|]. intros i image Hi. by apply (Hall i image).
Qed.

Lemma process_images_returns_in_image_order_witness :
  process_images config.defaults samples.describes_all [1; 0] samples.three_images
  = Ok [(1%Z, JStr "image 0"); (2%Z, JStr "image 1"); (3%Z, JStr "image 2")].
Proof.
  destruct (process_images config.defaults samples.describes_all [1; 0]
              samples.three_images) as [ocr_results|e] eqn:E; [|discriminate E].
  destruct (process_images_returns_in_image_order _ _ _ _ _ E) as [Hlen Hall].
  destruct ocr_results as [|r1 [|r2 [|r3 [|r4 rest]]]]; try discriminate Hlen.
  destruct (Hall 0 _ eq_refl) as (d1 & [= <-] & [= ->]).
  destruct (Hall 1 _ eq_refl) as (d2 & [= <-] & [= ->]).
  destruct (Hall 2 _ eq_refl) as (d3 & [= <-] & [= ->]).
  reflexivity.
Defined.

(** X4.  In serial mode [process_images] raises the failure of the first
    failing call exactly as [call_ocr] raised it.  An exception that is not
    an [OCRError] is therefore not wrapped in one, unlike in concurrent
    mode. *)
Theorem serial_raises_first_failure_as_is
    (cfg : config.Config) (post : nat → httpx.request → httpx.exchange)
    (schedule : list nat) (images : list (nat * nat * json))
    (k : nat) (image : nat * nat * json) (e : exn) :
  config.OCR_PARALLEL cfg = false →
  images !! k = Some image →
  call_ocr cfg (post k) image.2 (Z.of_nat k + 1) = Raise e →
  (∀ j earlier, j < k → images !! j = Some earlier →
     is_ok (call_ocr cfg (post j) earlier.2 (Z.of_nat j + 1)) = true) →
  process_images cfg post schedule images = Raise e.
Proof.
  intros Hserial Hk Hfail Hbefore. unfold process_images.
  destruct images as [|first rest] eqn:Himages; [done|].
  rewrite <- Himages in *. rewrite Hserial.
  apply (serial_first_failure cfg post 0 images k image);
    [exact Hk|exact Hfail|exact Hbefore].
Qed.

Lemma serial_raises_first_failure_as_is_witness :
  process_images samples.serial_config samples.second_answers_list []
    samples.three_images
  = Raise (TypeError "list indices must be integers or slices, not str") ∧
  process_images config.defaults samples.second_answers_list []
    samples.three_images
  = Raise (OCRError
             "OCR failed for image 2: list indices must be integers or slices, not str"
             2).
Proof.
  split; [|reflexivity].
  apply (serial_raises_first_failure_as_is samples.serial_config
           samples.second_answers_list [] samples.three_images
           1 (0, 1, samples.image)); [reflexivity..|].
  intros [|j] earlier Hj Hearlier; [|lia].
  injection Hearlier as <-. reflexivity.
Defined.

(** ** The message rebuilder: what it keeps *)
Section keep_facts.
Implicit Types (remove : gset (nat * nat)) (messages : list pydict).

Lemma strip_message_other_keys remove msg_idx (message message' : pydict) key :
  strip_message remove msg_idx message = Ok message' →
  key ≠ "content" → dict_get key message' = dict_get key message.
Proof.
  unfold strip_message. intros Hstrip Hkey.
  destruct (dict_get "content" message) as [[]|]; try by injection Hstrip as <-.
  destruct (simplify_content _) as [c|]; [|done].
  injection Hstrip as <-. by apply dict_get_set_ne.
Qed.

Lemma strip_from_lookup remove k messages stripped :
  strip_from remove k messages = Ok stripped →
  length stripped = length messages ∧
  ∀ i message, messages !! i = Some message →
    ∃ message', stripped !! i = Some message' ∧
                strip_message remove (k + i) message = Ok message'.
Proof.
  revert k stripped. induction messages as [|m messages IH]; intros k stripped.
  - intros [= <-]. split; [done|]. intros i message Hi. done.
  - simpl. destruct (strip_message remove k m) as [m'|] eqn:Hm; [|done]. simpl.
    destruct (strip_from remove (S k) messages) as [rest|] eqn:Hrest; [|done].
    simpl. intros [= <-]. destruct (IH _ _ Hrest) as [Hlen Hall].
    split; [simpl; by rewrite Hlen|].
    intros [|i] message Hi; simpl in Hi.
    + injection Hi as <-. exists m'. by rewrite Nat.add_0_r.
    + destruct (Hall i message Hi) as (message' & Hl & Hs).
      exists message'. split; [done|].
      by replace (k + S i) with (S k + i) by lia.
Qed.

Lemma is_user_other_keys (message message' : pydict) :
  (∀ key, key ≠ "content" → dict_get key message' = dict_get key message) →
  is_user message' = is_user message.
Proof. intros Hkeys. unfold is_user. by rewrite Hkeys. Qed.

Lemma scan_back_finds_some messages i message n :
  messages !! i = Some message → is_user message = true → i < n →
  is_Some (scan_back messages n).
Proof.
  intros Hi Huser. induction n as [|n IH]; [lia|]. intros Hlt. simpl.
  destruct (decide (n = i)) as [->|Hne].
  - rewrite Hi, Huser. eauto.
  - destruct (messages !! n) as [m|]; [|apply IH; lia].
    destruct (is_user m); [eauto|apply IH; lia].
Qed.

Lemma last_user_idx_none_iff messages :
  last_user_idx messages = None ↔ existsb is_user messages = false.
Proof.
  unfold last_user_idx. split.
  - intros Hnone. destruct (existsb is_user messages) eqn:E; [|done].
    apply existsb_exists in E as (m & Hin & Huser).
    apply list_elem_of_In, list_elem_of_lookup in Hin as [i Hi].
    destruct (scan_back_finds_some messages i m (length messages) Hi Huser)
      as [idx Hidx]; [by eapply lookup_lt_Some|congruence].
  - intros Hnone. apply scan_back_no_user. intros m Hin.
    destruct (is_user m) eqn:E; [|done].
    assert (existsb is_user messages = true); [|congruence].
    apply existsb_exists. exists m. by rewrite <- list_elem_of_In.
Qed.

Lemma append_ocr_text_lookup messages ocr_text i message :
  messages !! i = Some message →
  ∃ message', append_ocr_text messages ocr_text !! i = Some message' ∧
    ∀ key, key ≠ "content" → dict_get key message' = dict_get key message.
Proof.
  intros Hi. unfold append_ocr_text.
  destruct (last_user_idx messages) as [idx|];
    [|exists message; by rewrite lookup_app_l by (by eapply lookup_lt_Some)].
  destruct (messages !! idx) as [m|] eqn:Hidx; [|by exists message].
  destruct (appended_content _ _) as [c|]; [|by exists message].
  destruct (decide (idx = i)) as [->|Hne].
  - rewrite list_lookup_insert_eq by (by eapply lookup_lt_Some).
    eexists. split; [done|]. intros key Hkey.
    rewrite dict_get_set_ne by done. congruence.
  - rewrite list_lookup_insert_ne by done. by exists message.
Qed.

Lemma append_ocr_text_length messages ocr_text :
  length (append_ocr_text messages ocr_text)
  = if existsb is_user messages then length messages else S (length messages).
Proof.
  unfold append_ocr_text.
  destruct (last_user_idx messages) as [idx|] eqn:Hlast.
  - assert (existsb is_user messages = true) as ->.
    { destruct (existsb is_user messages) eqn:E; [done|].
      apply last_user_idx_none_iff in E. congruence. }
    destruct (messages !! idx); [|done].
    destruct (appended_content _ _); [|done]. by rewrite length_insert.
  - apply last_user_idx_none_iff in Hlast as ->.
    rewrite length_app. simpl. lia.
Qed.

Lemma existsb_is_user_stripped remove k messages stripped :
  strip_from remove k messages = Ok stripped →
  existsb is_user stripped = existsb is_user messages.
Proof.
  revert k stripped. induction messages as [|m messages IH]; intros k stripped.
  - by intros [= <-].
  - simpl. destruct (strip_message remove k m) as [m'|] eqn:Hm; [|done]. simpl.
    destruct (strip_from remove (S k) messages) as [rest|] eqn:Hrest; [|done].
    simpl. intros [= <-]. simpl. rewrite (IH _ _ Hrest). f_equal.
    apply is_user_other_keys. intros key Hkey.
    by eapply strip_message_other_keys.
Qed.

End keep_facts.

(** X5.  [rebuild_messages] changes nothing but the "content" of a message:
    whenever it returns, the message at every position of the input is still
    at that position with every other key ("role", "name", ...) unchanged.
    The result has one message more than the input exactly when the OCR text
    is non-empty and no message has the role "user", and as many otherwise. *)
Theorem rebuild_keeps_positions_and_other_keys
    (messages : list pydict) (images : list (nat * nat * json))
    (ocr_text : string) (rebuilt : list pydict) :
  rebuild_messages messages images ocr_text = Ok rebuilt →
  length rebuilt
  = (if negb (String.eqb ocr_text "") && negb (existsb is_user messages)
     then S (length messages) else length messages) ∧
  ∀ i message, messages !! i = Some message →
    ∃ message', rebuilt !! i = Some message' ∧
      ∀ key, key ≠ "content" → dict_get key message' = dict_get key message.
Proof.
  unfold rebuild_messages.
  destruct (strip_from _ 0 messages) as [stripped|] eqn:Hstrip; [|done].
  simpl. intros [= <-].
  destruct (strip_from_lookup _ _ _ _ Hstrip) as [Hlen Hall].
  pose proof (existsb_is_user_stripped _ _ _ _ Hstrip) as Husers.
  assert (Hkeys : ∀ i message, messages !! i = Some message →
            ∃ message', stripped !! i = Some message' ∧
              ∀ key, key ≠ "content" → dict_get key message' = dict_get key message).
  { intros i message Hi. destruct (Hall i message Hi) as (m' & Hl & Hs).
    exists m'. split; [done|]. intros key Hkey.
    by eapply strip_message_other_keys. }
  destruct (String.eqb ocr_text ""); simpl; [done|]. split.
  - rewrite append_ocr_text_length, Husers, Hlen.
    by destruct (existsb is_user messages).
  - intros i message Hi. destruct (Hkeys i message Hi) as (m' & Hl & Hsame).
    destruct (append_ocr_text_lookup stripped ocr_text i m' Hl) as (m'' & Hl' & Hsame').
    exists m''. split; [done|]. intros key Hkey.
    by rewrite Hsame', Hsame.
Qed.

Lemma rebuild_keeps_positions_and_other_keys_witness :
  ∃ rebuilt,
    rebuild_messages samples.conversation (extract_images samples.conversation)
      "图片1内容：(a cat)" = Ok rebuilt ∧
    length rebuilt = 4 ∧
    ∃ message', rebuilt !! 1 = Some message' ∧
                dict_get "role" message' = Some (JStr "user").
Proof.
  eexists. split; [reflexivity|].
  destruct (rebuild_keeps_positions_and_other_keys samples.conversation
              (extract_images samples.conversation) "图片1内容：(a cat)" _ eq_refl)
    as [Hlen Hkeys].
  split; [exact Hlen|].
  destruct (Hkeys 1 _ eq_refl) as (message' & Hl & Hsame).
  exists message'. split; [exact Hl|]. by rewrite Hsame.
Defined.

(** ** The message rebuilder: edge cases of the insertion *)

Lemma append_nothing_at_last_user (messages : list pydict) idx message ocr_text :
  last_user_at messages idx message →
  appended_content (dict_get_default "content" (JStr "") message) ocr_text = None →
  append_ocr_text messages ocr_text = messages.
Proof.
  intros Hlast Hnone. unfold append_ocr_text.
  rewrite (last_user_idx_found _ _ _ Hlast).
  destruct Hlast as [-> _]. by rewrite Hnone.
Qed.

(** X6.  Two edge cases of the insertion of a non-empty OCR text at the last
    message whose role is "user".  When that message has no "content" key,
    the key is created with the OCR text as its value.  When its content is
    present and is neither a string nor a list (null, a number, an object),
    nothing is assigned: the OCR text is dropped and the result is the same
    as for an empty OCR text. *)
Theorem rebuild_insertion_edge_cases
    (messages : list pydict) (images : list (nat * nat * json))
    (ocr_text : string) (stripped : list pydict) (idx : nat) (message : pydict) :
  ocr_text ≠ "" →
  rebuild_messages messages images "" = Ok stripped →
  last_user_at stripped idx message →
  (dict_get "content" message = None →
   rebuild_messages messages images ocr_text
   = Ok (<[idx := dict_set "content" (JStr ocr_text) message]> stripped)) ∧
  (∀ content, dict_get "content" message = Some content →
     is_list content = false → (∀ s, content ≠ JStr s) →
     rebuild_messages messages images ocr_text = Ok stripped).
Proof.
  intros Hne Hstripped Hlast. rewrite rebuild_without_text in Hstripped.
  rewrite (rebuild_with_text _ _ _ _ Hne Hstripped). split.
  - intros Hmissing. f_equal. apply append_at_last_user; [done|].
    unfold dict_get_default. by rewrite Hmissing.
  - intros content Hcontent Hlist Hstr. f_equal.
    eapply append_nothing_at_last_user; [done|].
    unfold dict_get_default. rewrite Hcontent. simpl.
    destruct content; try done. by destruct (Hstr s).
Qed.

Lemma rebuild_insertion_edge_cases_witness :
  rebuild_messages samples.missing_content_last
    (extract_images samples.missing_content_last) "图片1内容：(a cat)"
  = Ok [samples.message "user" (JStr "");
        samples.message "user" (JStr "图片1内容：(a cat)")] ∧
  rebuild_messages samples.null_content_last
    (extract_images samples.null_content_last) "图片1内容：(a cat)"
  = Ok [samples.message "user" (JStr ""); samples.message "user" JNull].
Proof.
  split.
  - assert (Hlast : last_user_at
              [samples.message "user" (JStr ""); [("role", JStr "user")]] 1
              [("role", JStr "user")]).
    { repeat split. intros [|[|j]] later Hj; [lia|lia|discriminate]. }
    exact (proj1 (rebuild_insertion_edge_cases samples.missing_content_last
                    (extract_images samples.missing_content_last)
                    "图片1内容：(a cat)" _ 1 _ ltac:(discriminate) eq_refl Hlast)
                 eq_refl).
  - assert (Hlast : last_user_at
              [samples.message "user" (JStr ""); samples.message "user" JNull] 1
              (samples.message "user" JNull)).
    { repeat split. intros [|[|j]] later Hj; [lia|lia|discriminate]. }
    exact (proj2 (rebuild_insertion_edge_cases samples.null_content_last
                    (extract_images samples.null_content_last)
                    "图片1内容：(a cat)" _ 1 _ ltac:(discriminate) eq_refl Hlast)
                 JNull eq_refl eq_refl ltac:(discriminate)).
Defined.

(** ** The message rebuilder: no image is left *)
Section no_image_facts.
Implicit Types (messages : list pydict).

Lemma extract_content_nil msg_idx k content :
  extract_content msg_idx k content = [] ↔
  Forall (λ item, is_image_item item = false) content.
Proof.
  revert k. induction content as [|x rest IH]; intros k; simpl.
  - split; [constructor|done].
  - rewrite Forall_cons. destruct (is_image_item x).
    + split; [done|]. by intros [? _].
    + rewrite IH. split; [done|]. by intros [_ ?].
Qed.

Lemma extract_message_nil msg_idx message :
  extract_message msg_idx message = [] ↔
  Forall (λ item, is_image_item item = false) (content_items message).
Proof.
  unfold extract_message, content_items.
  destruct (dict_get "content" message) as [[]|];
    try (split; [constructor|done]).
  apply extract_content_nil.
Qed.

Lemma extract_from_nil k messages :
  extract_from k messages = [] ↔
  Forall (λ message,
            Forall (λ item, is_image_item item = false) (content_items message))
         messages.
Proof.
  revert k. induction messages as [|m rest IH]; intros k; simpl.
  - split; [constructor|done].
  - rewrite Forall_cons, <- (IH (S k)), <- (extract_message_nil k). split.
    + intros H. by apply app_eq_nil in H.
    + intros [-> ->]. done.
Qed.

Lemma content_items_set (message : pydict) content :
  content_items (dict_set "content" content message)
  = match content with JList items => items | _ => [] end.
Proof. unfold content_items. by rewrite dict_get_set_eq. Qed.

Lemma append_ocr_text_no_image messages ocr_text :
  Forall (λ message,
            Forall (λ item, is_image_item item = false) (content_items message))
         messages →
  Forall (λ message,
            Forall (λ item, is_image_item item = false) (content_items message))
         (append_ocr_text messages ocr_text).
Proof.
  intros Hnone. unfold append_ocr_text.
  destruct (last_user_idx messages) as [idx|].
  - destruct (messages !! idx) as [m|] eqn:Hidx; [|done].
    destruct (appended_content _ _) as [c|] eqn:Hc; [|done].
    apply Forall_insert; [done|]. rewrite content_items_set.
    pose proof (Forall_lookup_1 _ _ _ _ Hnone Hidx) as Hm. simpl in Hm.
    unfold appended_content, dict_get_default, content_items in *.
    destruct (dict_get "content" m) as [[]|]; simpl in Hc;
      try (injection Hc as <-); try done.
    + destruct s; injection Hc as <-; constructor.
    + apply Forall_app. split; [done|]. by repeat constructor.
  - apply Forall_app. split; [done|]. repeat constructor.
Qed.

End no_image_facts.

(** X7.  The whole rebuild leaves no image behind.  For every message list in
    which no list-typed content is left, once its image items are taken out,
    with a single item that is not an object or with a single text item that
    carries a list as its text, [rebuild_messages] with the coordinates found
    by [extract_images] and any OCR text, empty or not, returns a message
    list in which [extract_images] finds nothing and for which [has_images]
    answers [False]. *)
Theorem rebuild_with_text_leaves_no_image
    (messages : list pydict) (ocr_text : string) :
  sole_items_are_objects messages = true →
  sole_texts_are_plain messages = true →
  ∃ rebuilt,
    rebuild_messages messages (extract_images messages) ocr_text = Ok rebuilt ∧
    extract_images rebuilt = [] ∧ has_images rebuilt = false.
Proof.
  intros Hobj Hplain.
  assert (Hclean : ∀ rebuilt, extract_images rebuilt = [] →
                              extract_images rebuilt = [] ∧ has_images rebuilt = false).
  { intros rebuilt Hnil. split; [done|].
    destruct (has_images rebuilt) eqn:E; [|done].
    apply has_images_extract in E as (i & j & item & Hin).
    rewrite Hnil in Hin. by apply elem_of_nil in Hin. }
  pose proof (strip_extracted messages Hobj) as Hstrip.
  pose proof (extract_from_without_images 0 messages Hplain) as Hnone.
  unfold rebuild_messages. rewrite Hstrip. simpl.
  destruct (String.eqb ocr_text "").
  - eexists. split; [done|]. by apply Hclean.
  - eexists. split; [done|]. apply Hclean. unfold extract_images.
    apply extract_from_nil, append_ocr_text_no_image.
    by apply (extract_from_nil 0).
Qed.

Lemma rebuild_with_text_leaves_no_image_witness :
  ∃ rebuilt,
    rebuild_messages samples.conversation (extract_images samples.conversation)
      "图片1内容：(a cat)" = Ok rebuilt ∧
    extract_images rebuilt = [] ∧ has_images rebuilt = false.
Proof.
  exact (rebuild_with_text_leaves_no_image samples.conversation
           "图片1内容：(a cat)" eq_refl eq_refl).
Defined.

(** ** The chat-completions handler *)
Section handler_facts.
Context (cfg : config.Config) (py_str : json → string).

Lemma as_dicts_objects (messages : list pydict) :
  main.as_dicts (JDict <$> messages) = Ok messages.
Proof.
  induction messages as [|m messages IH]; [done|].
  rewrite fmap_cons. simpl. by rewrite IH.
Qed.

Lemma collect_raises_ocr_error idx (tasks : list (result json)) e :
  collect idx tasks = Raise e → ∃ message i, e = OCRError message i.
Proof.
  revert idx. induction tasks as [|t tasks IH]; intros idx; [done|]. simpl.
  destruct t as [d|e'].
  - destruct (collect (S idx) tasks) eqn:E; [done|]. simpl.
    intros [= <-]. by eapply IH.
  - intros [= <-]. destruct e'; simpl; eauto.
Qed.

Lemma parallel_raises_ocr_error post schedule images e :
  config.OCR_PARALLEL cfg = true →
  process_images cfg post schedule images = Raise e →
  ∃ message i, e = OCRError message i.
Proof.
  intros Hpar. unfold process_images. destruct images; [done|].
  rewrite Hpar. apply collect_raises_ocr_error.
Qed.

Lemma parallel_raises_surfaced post schedule (images : list (nat * nat * json))
    k image e :
  config.OCR_PARALLEL cfg = true →
  images !! k = Some image →
  call_ocr cfg (post k) image.2 (Z.of_nat k + 1) = Raise e →
  (∀ j earlier, j < k → images !! j = Some earlier →
     is_ok (call_ocr cfg (post j) earlier.2 (Z.of_nat j + 1)) = true) →
  process_images cfg post schedule images = Raise (surfaced k e).
Proof.
  intros Hpar Hk Hfail Hbefore.
  unfold process_images. destruct images as [|first rest] eqn:Himages; [done|].
  rewrite <- Himages in *. rewrite Hpar, gather_in_task_order.
  rewrite (collect_first_failure 0 _ k e); [done| |].
  - rewrite list_lookup_imap, Hk. simpl. by rewrite Hfail.
  - intros j Hj.
    destruct (lookup_lt_is_Some_2 images j) as [earlier Hearlier].
    { apply lookup_lt_Some in Hk. lia. }
    specialize (Hbefore j earlier Hj Hearlier).
    rewrite list_lookup_imap, Hearlier. simpl.
    destruct (call_ocr cfg (post j) _ _) as [description|]; [eauto|done].
Qed.

Lemma or_502_raises r e :
  main.or_502 r = Raise e → ∃ detail, e = HTTPException 502 detail.
Proof. destruct r; simpl; [done|]. intros [= <-]. eauto. Qed.

(** The handler on a chat-completions request whose body is an object with
    a list of objects as its messages. *)
Lemma handle_chat_completions_unfold ocr_post schedule send request url
    authorization (payload : pydict) (messages : list pydict) :
  starlette.json request = inr (JDict payload) →
  dict_get_default "messages" (JList []) payload = JList (JDict <$> messages) →
  main.handle_chat_completions cfg py_str ocr_post schedule send request url
    authorization
  = if negb (has_images messages)
    then main.or_502 (proxy.forward_chat_request cfg send url payload authorization)
    else
      match process_images cfg ocr_post schedule (extract_images messages) with
      | Raise (OCRError message image_index) =>
          Raise (HTTPException 500
                   ("OCR processing failed for image " +:+ pretty image_index
                    +:+ ": " +:+ message))
      | Raise e => Raise e
      | Ok ocr_results =>
          new_messages ←
            rebuild_messages messages (extract_images messages)
              (format_ocr_results ((λ r, (r.1, py_str r.2)) <$> ocr_results));
          main.or_502
            (proxy.forward_chat_request cfg send url
               (dict_set "messages" (JList (JDict <$> new_messages)) payload)
               authorization)
      end.
Proof.
  intros Hjson Hmessages. unfold main.handle_chat_completions.
  rewrite Hjson, Hmessages. unfold main.iter_messages.
  by rewrite as_dicts_objects.
Qed.

Lemma proxy_handler_chat ocr_post schedule send request path url :
  main.parse_upstream_url path = Some url →
  main.is_chat_completions_path url = true →
  starlette.method request = "POST" →
  main.proxy_handler cfg py_str ocr_post schedule send request path
  = main.handle_chat_completions cfg py_str ocr_post schedule send request url
      (httpx.headers_get "Authorization" (starlette.headers request)).
Proof.
  intros Hparse Hchat Hpost. unfold main.proxy_handler.
  by rewrite Hparse, Hchat, Hpost.
Qed.

End handler_facts.

(** X10.  With concurrent OCR, a request whose JSON body (if it has one) is an
    object with well-formed messages never makes the handler raise anything
    but an [HTTPException] with status 400, 500 or 502: bad path or body,
    OCR failure, upstream failure. *)
Theorem handler_failures_are_http_errors
    (cfg : config.Config) (py_str : json → string)
    (ocr_post : nat → httpx.request → httpx.exchange) (schedule : list nat)
    (send : httpx.request → httpx.exchange)
    (request : starlette.Request) (path : string) (e : exn) :
  config.OCR_PARALLEL cfg = true →
  (∀ body, starlette.json request = inr body →
     ∃ payload messages,
       body = JDict payload ∧
       dict_get_default "messages" (JList []) payload = JList (JDict <$> messages) ∧
       sole_items_are_objects messages = true) →
  main.proxy_handler cfg py_str ocr_post schedule send request path = Raise e →
  ∃ status detail,
    e = HTTPException status detail ∧
    (status = 400 ∨ status = 500 ∨ status = 502)%Z.
Proof.
  intros Hpar Hbody. unfold main.proxy_handler.
  destruct (main.parse_upstream_url path) as [url|];
    [|intros [= <-]; eexists _, _; split; [done|by left]].
  destruct (_ && _).
  - destruct (starlette.json request) as [msg|body] eqn:Hjson.
    { unfold main.handle_chat_completions. rewrite Hjson.
      intros [= <-]. eexists _, _. split; [done|by left]. }
    destruct (Hbody body eq_refl) as (payload & messages & -> & Hmessages & Hobj).
    rewrite (handle_chat_completions_unfold _ _ _ _ _ _ _ _ _ _ Hjson Hmessages).
    destruct (negb (has_images messages)).
    { intros (detail & ->)%or_502_raises. eexists _, _.
      split; [done|by right; right]. }
    destruct (process_images _ _ _ _) as [ocr_results|e'] eqn:Hocr.
    + unfold rebuild_messages. rewrite (strip_extracted messages Hobj). simpl.
      intros (detail & ->)%or_502_raises. eexists _, _.
      split; [done|by right; right].
    + destruct (parallel_raises_ocr_error _ _ _ _ _ Hpar Hocr) as (m & i & ->).
      intros [= <-]. eexists _, _. split; [done|by right; left].
  - intros (detail & ->)%or_502_raises. eexists _, _.
    split; [done|by right; right].
Qed.

Lemma handler_failures_are_http_errors_witness :
  ∃ status detail,
    main.proxy_handler config.defaults samples.description_text
      samples.describes_all [] samples.unreachable_upstream
      samples.chat_with_image "http://up/v1/chat/completions"
    = Raise (HTTPException status detail) ∧
    (status = 400 ∨ status = 500 ∨ status = 502)%Z.
Proof.
  destruct (handler_failures_are_http_errors config.defaults
              samples.description_text samples.describes_all []
              samples.unreachable_upstream samples.chat_with_image
              "http://up/v1/chat/completions"
              (HTTPException 502 "Upstream error: All connection attempts failed")
              eq_refl)
    as (status & detail & Heq & Hstatus).
  - intros body [= <-]. eexists _, [_]. repeat split; reflexivity.
  - reflexivity.
  - exists status, detail. split; [|exact Hstatus]. rewrite <- Heq. reflexivity.
Defined.

(** X11.  All or nothing.  With concurrent OCR, when the call for the image at
    position [k] of the extracted images fails and the calls before it
    succeed, a chat-completions POST fails as a whole with status 500 and a
    detail that names the ordinal [k + 1]; the outcome is the same for every
    upstream, which is not consulted. *)
Theorem ocr_failure_fails_the_request
    (cfg : config.Config) (py_str : json → string)
    (ocr_post : nat → httpx.request → httpx.exchange) (schedule : list nat)
    (request : starlette.Request) (path url : string)
    (payload : pydict) (messages : list pydict)
    (k : nat) (image : nat * nat * json) (e : exn) :
  config.OCR_PARALLEL cfg = true →
  main.parse_upstream_url path = Some url →
  main.is_chat_completions_path url = true →
  starlette.method request = "POST" →
  starlette.json request = inr (JDict payload) →
  dict_get_default "messages" (JList []) payload = JList (JDict <$> messages) →
  extract_images messages !! k = Some image →
  call_ocr cfg (ocr_post k) image.2 (Z.of_nat k + 1) = Raise e →
  (∀ j earlier, j < k → extract_images messages !! j = Some earlier →
     is_ok (call_ocr cfg (ocr_post j) earlier.2 (Z.of_nat j + 1)) = true) →
  ∃ reason, ∀ send,
    main.proxy_handler cfg py_str ocr_post schedule send request path
    = Raise (HTTPException 500
               ("OCR processing failed for image " +:+ pretty (Z.of_nat k + 1)%Z
                +:+ ": " +:+ reason)).
Proof.
  intros Hpar Hparse Hchat Hpost Hjson Hmessages Hk Hfail Hbefore.
  assert (Himages : has_images messages = true).
  { apply has_images_extract. destruct image as [[i j] item].
    exists i, j, item. apply list_elem_of_lookup. eauto. }
  assert (∃ reason, surfaced k e = OCRError reason (Z.of_nat k + 1)) as [reason Hs].
  { destruct e; simpl; eauto.
    apply call_ocr_error_ordinal in Hfail as ->. eauto. }
  exists reason. intros send.
  rewrite (proxy_handler_chat _ _ _ _ _ _ _ _ Hparse Hchat Hpost).
  rewrite (handle_chat_completions_unfold _ _ _ _ _ _ _ _ _ _ Hjson Hmessages).
  rewrite Himages. simpl.
  by rewrite (parallel_raises_surfaced cfg _ _ _ k image e Hpar Hk Hfail Hbefore), Hs.
Qed.

Lemma ocr_failure_fails_the_request_witness :
  ∃ reason, ∀ send,
    main.proxy_handler config.defaults samples.description_text
      samples.first_and_third_fail [] send
      samples.chat_with_image "http://up/v1/chat/completions"
    = Raise (HTTPException 500
               ("OCR processing failed for image 1: " +:+ reason)).
Proof.
  apply (ocr_failure_fails_the_request config.defaults
           samples.description_text samples.first_and_third_fail []
           samples.chat_with_image "http://up/v1/chat/completions"
           "http://up/v1/chat/completions" _ [_] 0 (0, 1, samples.image)
           (OCRError "OCR API returned status 500: overloaded" 1)
           eq_refl eq_refl eq_refl eq_refl eq_refl eq_refl eq_refl eq_refl).
  intros j earlier Hj. lia.
Defined.

Lemma rebuild_extracted_no_image (messages : list pydict) (ocr_text : string) :
  sole_items_are_objects messages = true →
  sole_texts_are_plain messages = true →
  ∃ rebuilt,
    rebuild_messages messages (extract_images messages) ocr_text = Ok rebuilt ∧
    extract_images rebuilt = [].
Proof.
  intros Hobj Hplain.
  pose proof (extract_from_without_images 0 messages Hplain) as Hnone.
  unfold rebuild_messages. rewrite (strip_extracted messages Hobj). simpl.
  destruct (String.eqb ocr_text ""); eexists; (split; [done|]); [done|].
  apply extract_from_nil, append_ocr_text_no_image. by apply (extract_from_nil 0).
Qed.

(** X12.  A chat-completions POST whose well-formed messages hold images, all
    of which the OCR describes, is forwarded with a payload in which only
    "messages" has changed, and in the new messages [extract_images] finds
    no image. *)
Theorem chat_request_is_forwarded_without_images
    (cfg : config.Config) (py_str : json → string)
    (ocr_post : nat → httpx.request → httpx.exchange) (schedule : list nat)
    (send : httpx.request → httpx.exchange)
    (request : starlette.Request) (path url : string)
    (payload : pydict) (messages : list pydict) (ocr_results : list (Z * json)) :
  main.parse_upstream_url path = Some url →
  main.is_chat_completions_path url = true →
  starlette.method request = "POST" →
  starlette.json request = inr (JDict payload) →
  dict_get_default "messages" (JList []) payload = JList (JDict <$> messages) →
  sole_items_are_objects messages = true →
  sole_texts_are_plain messages = true →
  has_images messages = true →
  process_images cfg ocr_post schedule (extract_images messages) = Ok ocr_results →
  ∃ rebuilt new_payload,
    main.proxy_handler cfg py_str ocr_post schedule send request path
    = main.or_502
        (proxy.forward_chat_request cfg send url new_payload
           (httpx.headers_get "Authorization" (starlette.headers request))) ∧
    dict_get "messages" new_payload = Some (JList (JDict <$> rebuilt)) ∧
    (∀ key, key ≠ "messages" → dict_get key new_payload = dict_get key payload) ∧
    extract_images rebuilt = [].
Proof.
  intros Hparse Hchat Hpost Hjson Hmessages Hobj Hplain Himages Hocr.
  destruct (rebuild_extracted_no_image messages
              (format_ocr_results ((λ r, (r.1, py_str r.2)) <$> ocr_results))
              Hobj Hplain) as (rebuilt & Hrebuilt & Hnone).
  exists rebuilt, (dict_set "messages" (JList (JDict <$> rebuilt)) payload).
  repeat split.
  - rewrite (proxy_handler_chat _ _ _ _ _ _ _ _ Hparse Hchat Hpost).
    rewrite (handle_chat_completions_unfold _ _ _ _ _ _ _ _ _ _ Hjson Hmessages).
    by rewrite Himages, Hocr, Hrebuilt.
  - apply dict_get_set_eq.
  - intros key Hkey. by apply dict_get_set_ne.
  - done.
Qed.

Lemma chat_request_is_forwarded_without_images_witness :
  ∃ rebuilt new_payload,
    main.proxy_handler config.defaults samples.description_text
      samples.describes_all [] samples.echo_upstream
      samples.chat_with_image "http://up/v1/chat/completions"
    = main.or_502
        (proxy.forward_chat_request config.defaults samples.echo_upstream
           "http://up/v1/chat/completions" new_payload (Some "Bearer t")) ∧
    dict_get "messages" new_payload = Some (JList (JDict <$> rebuilt)) ∧
    dict_get "temperature" new_payload = Some (JInt 0) ∧
    extract_images rebuilt = [].
Proof.
  destruct (chat_request_is_forwarded_without_images config.defaults
              samples.description_text samples.describes_all []
              samples.echo_upstream samples.chat_with_image
              "http://up/v1/chat/completions" "http://up/v1/chat/completions"
              _ [_] _ eq_refl eq_refl eq_refl eq_refl eq_refl eq_refl eq_refl
              eq_refl eq_refl)
    as (rebuilt & new_payload & Hforward & Hmessages & Hother & Hnone).
  exists rebuilt, new_payload. repeat split; [exact Hforward|exact Hmessages| |exact Hnone].
  rewrite Hother; [reflexivity|discriminate].
Defined.

(** X13.  A chat-completions POST whose messages hold no image is forwarded
    with its payload as it came, and the OCR endpoint plays no part: the
    outcome is the same for every OCR endpoint and order of completion. *)
Theorem chat_request_without_images_is_forwarded_as_is
    (cfg : config.Config) (send : httpx.request → httpx.exchange)
    (request : starlette.Request) (path url : string)
    (payload : pydict) (messages : list pydict) :
  main.parse_upstream_url path = Some url →
  main.is_chat_completions_path url = true →
  starlette.method request = "POST" →
  starlette.json request = inr (JDict payload) →
  dict_get_default "messages" (JList []) payload = JList (JDict <$> messages) →
  extract_images messages = [] →
  ∀ py_str ocr_post schedule,
    main.proxy_handler cfg py_str ocr_post schedule send request path
    = main.or_502
        (proxy.forward_chat_request cfg send url payload
           (httpx.headers_get "Authorization" (starlette.headers request))).
Proof.
  intros Hparse Hchat Hpost Hjson Hmessages Hnone py_str ocr_post schedule.
  assert (has_images messages = false) as Himages.
  { destruct (has_images messages) eqn:E; [|done].
    apply has_images_extract in E as (i & j & item & Hin).
    rewrite Hnone in Hin. by apply elem_of_nil in Hin. }
  rewrite (proxy_handler_chat _ _ _ _ _ _ _ _ Hparse Hchat Hpost).
  rewrite (handle_chat_completions_unfold _ _ _ _ _ _ _ _ _ _ Hjson Hmessages).
  by rewrite Himages.
Qed.

Lemma chat_request_without_images_is_forwarded_as_is_witness :
  main.proxy_handler config.defaults samples.description_text
    samples.first_and_third_fail [] samples.echo_upstream
    samples.chat_with_query "http://up/v1/chat/completions"
  = main.or_502
      (proxy.forward_chat_request config.defaults samples.echo_upstream
         "http://up/v1/chat/completions"
         [("messages", JList [JDict (samples.message "user" (JStr "hi"))])]
         (Some "Bearer t")).
Proof.
  exact (chat_request_without_images_is_forwarded_as_is config.defaults
           samples.echo_upstream samples.chat_with_query
           "http://up/v1/chat/completions" "http://up/v1/chat/completions"
           _ [_] eq_refl eq_refl eq_refl eq_refl eq_refl eq_refl
           samples.description_text samples.first_and_third_fail []).
Defined.

(** ** The transparent proxy: what is relayed *)
Section relay_facts.

Lemma contains_unfold s needle :
  contains s needle
  = String.prefix needle s ||
    match s with
    | "" => false
    | String _ rest => contains rest needle
    end.
Proof. by destruct s. Qed.

Lemma contains_infix before needle after :
  contains (before +:+ needle +:+ after) needle = true.
Proof.
  induction before as [|c before IH].
  - change ("" +:+ needle +:+ after) with (needle +:+ after).
    by rewrite contains_unfold, prefix_append.
  - rewrite append_cons, contains_unfold, IH. apply orb_true_r.
Qed.

End relay_facts.

(** X14.  For a request and an upstream response in which no header name
    repeats, and a response that is not an event stream, the transparent
    proxy sends upstream the inbound headers without Host and Content-Length
    (in any letter case), in their order, and relays status, body and the
    response headers without the six hop-by-hop headers, in their order. *)
Theorem passthrough_relays_distinct_headers
    (cfg : config.Config) (send : httpx.request → httpx.exchange)
    (upstream_url : string) (request : starlette.Request)
    (response : httpx.response) :
  NoDup (starlette.headers request).*1 →
  NoDup (httpx.resp_headers response).*1 →
  send (proxy.passthrough_request cfg upstream_url request)
  = httpx.Responded response →
  contains (default "" (httpx.headers_get "content-type"
                          (httpx.resp_headers response)))
    "text/event-stream" = false →
  httpx.headers (proxy.passthrough_request cfg upstream_url request)
  = filter (λ item, lower item.1 ∉ transport_names) (starlette.headers request) ∧
  proxy.passthrough cfg send upstream_url request
  = Ok (proxy.Response (httpx.text response) (httpx.status_code response)
          (filter (λ item, lower item.1 ∉ hop_by_hop_names)
             (httpx.resp_headers response))
          (httpx.headers_get "content-type" (httpx.resp_headers response))).
Proof.
  intros Hin Hout Hsend Hplain. split.
  - by apply forwarded_headers_distinct.
  - unfold proxy.passthrough, proxy.perform. rewrite Hsend. simpl.
    by rewrite Hplain, relayed_headers_distinct.
Qed.

Lemma passthrough_relays_distinct_headers_witness :
  httpx.headers
    (proxy.passthrough_request config.defaults "http://up/v1/models"
       samples.models_with_query)
  = [("authorization", "Bearer t")] ∧
  proxy.passthrough config.defaults samples.json_upstream "http://up/v1/models"
    samples.models_with_query
  = Ok (proxy.Response "{}" 200
          [("content-type", "application/json"); ("x-request-id", "42")]
          (Some "application/json")).
Proof.
  destruct (passthrough_relays_distinct_headers config.defaults
              samples.json_upstream "http://up/v1/models" samples.models_with_query
              {| httpx.status_code := 200; httpx.text := "{}";
                 httpx.resp_headers :=
                   [("content-type", "application/json");
                    ("connection", "close");
                    ("x-request-id", "42");
                    ("transfer-encoding", "chunked")];
                 httpx.resp_json := inr (JDict []) |})
    as [Hforwarded Hrelayed].
  - apply (bool_decide_unpack _). reflexivity.
  - apply (bool_decide_unpack _). reflexivity.
  - reflexivity.
  - reflexivity.
  - split; [rewrite Hforwarded|rewrite Hrelayed]; reflexivity.
Defined.

(** X15.  When the content type of the upstream response holds
    "text/event-stream" anywhere (parameters before or after do not matter),
    the transparent proxy answers with a streaming response that re-issues
    the very request it has just made; the status and the headers of the
    first response are not relayed, only Cache-Control and Connection are
    set. *)
Theorem passthrough_streams_event_streams
    (cfg : config.Config) (send : httpx.request → httpx.exchange)
    (upstream_url : string) (request : starlette.Request)
    (response : httpx.response) (before after : string) :
  send (proxy.passthrough_request cfg upstream_url request)
  = httpx.Responded response →
  httpx.headers_get "content-type" (httpx.resp_headers response)
  = Some (before +:+ "text/event-stream" +:+ after) →
  proxy.passthrough cfg send upstream_url request
  = Ok (proxy.StreamingResponse
          (proxy.passthrough_request cfg upstream_url request)
          "text/event-stream"
          [("Cache-Control", "no-cache"); ("Connection", "keep-alive")]).
Proof.
  intros Hsend Htype. unfold proxy.passthrough, proxy.perform.
  rewrite Hsend. simpl. rewrite Htype. simpl.
  by rewrite contains_infix.
Qed.

Lemma passthrough_streams_event_streams_witness :
  proxy.passthrough config.defaults samples.streaming_upstream "http://up/v1/events"
    samples.models_with_query
  = Ok (proxy.StreamingResponse
          (proxy.passthrough_request config.defaults "http://up/v1/events"
             samples.models_with_query)
          "text/event-stream"
          [("Cache-Control", "no-cache"); ("Connection", "keep-alive")]).
Proof.
  exact (passthrough_streams_event_streams config.defaults
           samples.streaming_upstream "http://up/v1/events"
           samples.models_with_query _ "" "; charset=utf-8" eq_refl eq_refl).
Defined.

(** ** The OCR client: what escapes it *)
Section escape_facts.

Lemma getitem_key_raises x key e :
  getitem_key x key = Raise e →
  (∃ k, e = KeyError k) ∨ (∃ m, e = TypeError m).
Proof.
  destruct x; simpl; try (intros [= <-]; eauto; fail).
  destruct (dict_get key fields); [done|]. intros [= <-]. eauto.
Qed.

Lemma getitem_0_raises x e :
  getitem_0 x = Raise e →
  (∃ k, e = KeyError k) ∨ (∃ m, e = IndexError m) ∨ (∃ m, e = TypeError m).
Proof.
  destruct x as [| | | |[|]|[|]|]; simpl; try done; intros [= <-]; eauto.
Qed.

Lemma response_text_raises body e :
  response_text body = Raise e →
  (∃ k, e = KeyError k) ∨ (∃ m, e = IndexError m) ∨ (∃ m, e = TypeError m).
Proof.
  unfold response_text.
  destruct (getitem_key body "choices") as [choices|] eqn:E1; simpl.
  2:{ intros [= <-]. apply getitem_key_raises in E1 as [?|?]; eauto. }
  destruct (getitem_0 choices) as [first|] eqn:E2; simpl.
  2:{ intros [= <-]. by apply getitem_0_raises in E2. }
  destruct (getitem_key first "message") as [msg|] eqn:E3; simpl.
  2:{ intros [= <-]. apply getitem_key_raises in E3 as [?|?]; eauto. }
  intros H. apply getitem_key_raises in H as [?|?]; eauto.
Qed.

End escape_facts.

(** X16.  An exception other than [OCRError] escapes [call_ocr] only from an
    answer with status 200: either the body is not JSON and the decoding
    error escapes, or the lookup [choices[0].message.content] meets a value
    of the wrong type and its [TypeError] escapes.  Every other failure is an
    [OCRError]. *)
Theorem call_ocr_escapes
    (cfg : config.Config) (post : httpx.request → httpx.exchange)
    (image_content : json) (image_index : Z) (e : exn) :
  call_ocr cfg post image_content image_index = Raise e →
  (∃ reason, e = OCRError reason image_index) ∨
  (∃ response,
     post (ocr_request cfg image_content) = httpx.Responded response ∧
     httpx.status_code response = 200%Z ∧
     ((∃ msg, httpx.resp_json response = inl msg ∧ e = JSONDecodeError msg) ∨
      (∃ body msg, httpx.resp_json response = inr body ∧
                   response_text body = Raise (TypeError msg) ∧
                   e = TypeError msg))).
Proof.
  unfold call_ocr.
  destruct (post (ocr_request cfg image_content)) as [response|msg|msg];
    [|intros [= <-]; left; eauto..].
  destruct (Z.eqb_spec (httpx.status_code response) 200) as [H200|Hne]; simpl;
    [|intros [= <-]; left; eauto].
  destruct (httpx.resp_json response) as [msg|body] eqn:Hjson.
  { intros [= <-]. right. exists response. repeat split; [done|]. left. eauto. }
  destruct (response_text body) as [d|e'] eqn:Htext; [done|].
  destruct (response_text_raises _ _ Htext) as [[k ->]|[[m ->]|[m ->]]].
  - intros [= <-]. left. eauto.
  - intros [= <-]. left. eauto.
  - intros [= <-]. right. exists response. repeat split; [done|]. right. eauto.
Qed.

Lemma call_ocr_escapes_witness :
  (∃ reason, TypeError "list indices must be integers or slices, not str"
             = OCRError reason 2) ∨
  (∃ response,
     samples.second_answers_list 1 (ocr_request config.defaults samples.image)
     = httpx.Responded response ∧
     httpx.status_code response = 200%Z ∧
     ((∃ msg, httpx.resp_json response = inl msg ∧
              TypeError "list indices must be integers or slices, not str"
              = JSONDecodeError msg) ∨
      (∃ body msg, httpx.resp_json response = inr body ∧
                   response_text body = Raise (TypeError msg) ∧
                   TypeError "list indices must be integers or slices, not str"
                   = TypeError msg))).
Proof.
  exact (call_ocr_escapes config.defaults (samples.second_answers_list 1)
           samples.image 2
           (TypeError "list indices must be integers or slices, not str") eq_refl).
Defined.
